(** * HanBingo: the turn/phase engine of [src/App.tsx], embedded in Rocq

    The React component [App] keeps the game in a handful of [useState]
    cells and changes them from event handlers, timers and effects.  The
    embedding below keeps the source's data ([types.ts]) as records, JS
    arrays as lists, the [answers] object as a finite map from player ids
    to option ids, and every callback as a function to the state after
    it.  A callback is created during a render and closes over the values
    that render read from the state; it may run much later.  It
    therefore takes two states: [snap], the state of the render it
    belongs to, where its plain reads go, and [s], the state when it
    runs, where [phaseRef.current] and the [prev] of a functional update
    are read and where its writes land.  A JS [TypeError] (reading a
    property of [undefined]) is the [None] of an [option] result.
    Randomness ([Math.random], the random-comparator [shuffle]) is an
    explicit argument of the function that consumes it. *)

From stdpp Require Import base option list strings gmap pretty.
From Stdlib Require Import ZArith.

Open Scope string_scope.
Open Scope nat_scope.
Open Scope list_scope.

(** ** Data model ([types.ts]) *)

Inductive Grade := G8 | G7 | G6 | G5 | G4 | G3 | G2 | G1.

Record HanjaData := mkHanja {
  hanja_id : string;
  char : string;
  hun : string;
  eum : string;
  hunEum : string
}.

Record Cell := mkCell {
  cell_id : string;
  hanja : HanjaData;
  isFlipped : bool;
  isPeeked : bool;
  gridIndex : nat
}.

Record Player := mkPlayer {
  player_id : string;
  name : string;
  isAI : bool;
  board : list Cell;
  score : nat;
  color : option string;
  bonusGauge : nat;
  hasShield : bool
}.

Inductive GamePhase :=
  SETUP | LOADING | TURN_START | PEEK | SELECT | QUIZ | EVALUATE | GAME_OVER.

Inductive GameMode := STANDARD | DRAFT.

Record GameSettings := mkSettings {
  grade : Grade;
  playerCount : nat;
  mode : GameMode;
  winLines : nat
}.

Inductive QuizType := HANJA_TO_HUNEUM | HUNEUM_TO_HANJA.

Record QuizState := mkQuiz {
  targetHanja : option HanjaData;
  type : QuizType;
  options : list HanjaData;
  correctOptionId : string;
  answers : gmap string string;
  resultsShown : bool
}.

#[global] Instance GamePhase_eq_dec : EqDecision GamePhase.
Proof. solve_decision. Defined.
#[global] Instance HanjaData_eq_dec : EqDecision HanjaData.
Proof. solve_decision. Defined.
#[global] Instance Cell_eq_dec : EqDecision Cell.
Proof. solve_decision. Defined.
#[global] Instance Player_eq_dec : EqDecision Player.
Proof. solve_decision. Defined.

(** ** Constants *)

Definition COLORS : list string := ["#3b82f6"; "#ef4444"; "#22c55e"; "#f59e0b"].
Definition TURN_TIMEOUT : Z := 30.
Definition QUIZ_TIMEOUT : Z := 10.
(** The literal ['TIMEOUT_WRONG'] written by the timer-expiry effect. *)
Definition TIMEOUT_MARKER : string := "TIMEOUT_WRONG".

(** ** JS array helpers *)

(** [arr.slice(start, end)] for [0 <= start <= end]. *)
Definition slice {A} (start stop : nat) (l : list A) : list A :=
  take (stop - start) (drop start l).

(** A [for] loop over the indices [idxs] whose body may throw. *)
Fixpoint forM {S} (idxs : list nat) (body : nat → S → option S) (s : S) : option S :=
  match idxs with
  | [] => Some s
  | i :: idxs' => s' ← body i s; forM idxs' body s'
  end.

(** [arr.every(f)] where [f] may throw; stops at the first [false]. *)
Fixpoint everyM {A} (f : A → option bool) (l : list A) : option bool :=
  match l with
  | [] => Some true
  | x :: l' => b ← f x; if b : bool then everyM f l' else Some false
  end.

(** ** BingoEvaluator: [checkBingo] *)

Definition checkBingo (board : list Cell) : option nat :=
  let size := 5 in
  let lines := 0 in
  (* Rows *)
  let lines :=
    foldl (fun lines i =>
             if forallb isFlipped (slice (i * size) ((i + 1) * size) board)
             then lines + 1 else lines)
          lines (seq 0 size) in
  (* Cols *)
  lines ← forM (seq 0 size) (fun i lines =>
             colFull ← forM (seq 0 size) (fun j colFull =>
                          c ← board !! (j * size + i);
                          Some (if negb (isFlipped c) then false else colFull)) true;
             Some (if colFull : bool then lines + 1 else lines)) lines;
  (* Diagonals *)
  d1 ← everyM (fun i => c ← board !! i; Some (isFlipped c)) [0; 6; 12; 18; 24];
  let lines := if d1 : bool then lines + 1 else lines in
  d2 ← everyM (fun i => c ← board !! i; Some (isFlipped c)) [4; 8; 12; 16; 20];
  let lines := if d2 : bool then lines + 1 else lines in
  Some lines.

(** The evaluator as the specification words it: the twelve lines of a
    5x5 row-major board, and the number of them whose five cells are all
    flipped. *)
Definition spec_rows : list (list nat) :=
  [[0; 1; 2; 3; 4]; [5; 6; 7; 8; 9]; [10; 11; 12; 13; 14];
   [15; 16; 17; 18; 19]; [20; 21; 22; 23; 24]].
Definition spec_cols : list (list nat) :=
  [[0; 5; 10; 15; 20]; [1; 6; 11; 16; 21]; [2; 7; 12; 17; 22];
   [3; 8; 13; 18; 23]; [4; 9; 14; 19; 24]].
Definition spec_diagonals : list (list nat) :=
  [[0; 6; 12; 18; 24]; [4; 8; 12; 16; 20]].
Definition spec_lines : list (list nat) := spec_rows ++ spec_cols ++ spec_diagonals.

(** Row [i] and column [i] of the grid, as index lists. *)
Definition rowIdx (i : nat) : list nat :=
  [i * 5; i * 5 + 1; i * 5 + 2; i * 5 + 3; i * 5 + 4].
Definition colIdx (i : nat) : list nat :=
  [i; 5 + i; 10 + i; 15 + i; 20 + i].

Definition flippedAt (board : list Cell) (i : nat) : bool :=
  match board !! i with Some c => isFlipped c | None => false end.

Definition lineCompleted (board : list Cell) (line : list nat) : bool :=
  forallb (flippedAt board) line.

Definition spec_countCompletedLines (board : list Cell) : nat :=
  length (List.filter (lineCompleted board) spec_lines).

(** ** Randomness

    [Math.random()] yields a number in [0,1).  A draw is kept as the
    fraction [rnum / (rnum + rrest + 1)], which is in [0,1) by construction
    and reaches every rational of that interval. *)

Record Rand := mkRand { rnum : nat; rrest : nat }.

Definition rden (r : Rand) : nat := rnum r + rrest r + 1.

(** [Math.random() > p/q] *)
Definition rand_gt (r : Rand) (p q : nat) : bool :=
  (p * rden r <? rnum r * q)%nat.

(** [Math.floor(Math.random() * n)] *)
Definition rand_floor (r : Rand) (n : nat) : nat := (rnum r * n) / rden r.

(** [shuffle(array)] is [[...array].sort(() => Math.random() - 0.5)]: a
    sort of a copy under a comparator that answers at random.  The
    language fixes only that the result is a rearrangement of the copy;
    which one is left to the engine and the draws.  The [seed] stands for
    those draws: it gives, for each element, the place where it enters
    the arrangement of the elements after it. *)
Definition insertAt {A} (k : nat) (x : A) (l : list A) : list A :=
  take k l ++ x :: drop k l.

Fixpoint shuffle {A} (seed : list nat) (array : list A) : list A :=
  match array with
  | [] => []
  | x :: rest => insertAt (hd 0 seed) x (shuffle (tl seed) rest)
  end.
Global Arguments shuffle : simpl never.

(** JS truthiness of [obj[key]] for a string-valued object: [undefined]
    and the empty string are falsy. *)
Definition truthy (v : option string) : bool :=
  match v with
  | Some s => negb (String.eqb s "")
  | None => false
  end.

(** ** [services/geminiService.ts] *)

Definition FALLBACK_HANJA : list HanjaData := [
  mkHanja "1" "天" "하늘" "천" "하늘 천";
  mkHanja "2" "地" "땅" "지" "땅 지";
  mkHanja "3" "玄" "검을" "현" "검을 현";
  mkHanja "4" "黄" "누를" "황" "누를 황";
  mkHanja "5" "宇" "집" "우" "집 우";
  mkHanja "6" "宙" "집" "주" "집 주";
  mkHanja "7" "洪" "넓을" "홍" "넓을 홍";
  mkHanja "8" "荒" "거칠" "황" "거칠 황";
  mkHanja "9" "日" "날" "일" "날 일";
  mkHanja "10" "月" "달" "월" "달 월";
  mkHanja "11" "盈" "찰" "영" "찰 영";
  mkHanja "12" "昃" "기울" "측" "기울 측";
  mkHanja "13" "辰" "별" "진" "별 진";
  mkHanja "14" "宿" "잘" "수" "잘 수";
  mkHanja "15" "列" "벌일" "열" "벌일 열";
  mkHanja "16" "張" "베풀" "장" "베풀 장";
  mkHanja "17" "寒" "찰" "한" "찰 한";
  mkHanja "18" "來" "올" "래" "올 래";
  mkHanja "19" "暑" "더울" "서" "더울 서";
  mkHanja "20" "往" "갈" "왕" "갈 왕";
  mkHanja "21" "秋" "가을" "추" "가을 추";
  mkHanja "22" "收" "거둘" "수" "거둘 수";
  mkHanja "23" "冬" "겨울" "동" "겨울 동";
  mkHanja "24" "藏" "감출" "장" "감출 장";
  mkHanja "25" "閏" "윤달" "윤" "윤달 윤";
  mkHanja "26" "餘" "남을" "여" "남을 여";
  mkHanja "27" "成" "이룰" "성" "이룰 성";
  mkHanja "28" "歲" "해" "세" "해 세";
  mkHanja "29" "律" "법" "률" "법 률";
  mkHanja "30" "呂" "법칙" "려" "법칙 려"
].

(** One element of the parsed model response, with the value [Date.now()]
    had when the element was mapped. *)
Record RawItem := mkRaw {
  raw_now : nat;
  raw_char : string;
  raw_hun : string;
  raw_eum : string
}.

(** What the call to the content service came to. *)
Inductive ApiOutcome :=
  | ApiKeyMissing
  | ApiFailed
  | ApiResponded (rawData : list RawItem).

Definition fetchHanjaData (api : ApiOutcome) (grade : Grade) (count : nat)
  : list HanjaData :=
  match api with
  | ApiKeyMissing => slice 0 count FALLBACK_HANJA
  | ApiFailed => slice 0 count FALLBACK_HANJA
  | ApiResponded rawData =>
      imap (fun index item =>
              mkHanja ("gemini-" +:+ pretty (raw_now item) +:+ "-" +:+ pretty index)
                      (raw_char item) (raw_hun item) (raw_eum item)
                      (raw_hun item +:+ " " +:+ raw_eum item))
           rawData
  end.


(** ** Component state ([App], the [useState] cells) *)

(** [turnIndex] is a JS number: a natural number, or [NaN] once the
    remainder by an empty [players] array has been taken. *)
Inductive number := Num (n : nat) | NaN.

Record State := mkState {
  phase : GamePhase;
  settings : GameSettings;
  players : list Player;
  turnIndex : number;
  peekedCardIds : list string;
  quizState : option QuizState;
  gameLog : list string;
  timeLeft : Z
}.

Definition initialState : State :=
  mkState SETUP (mkSettings G8 2 STANDARD 1) [] (Num 0) [] None [] 0.

Definition setPhase (v : GamePhase) (s : State) : State :=
  mkState v (settings s) (players s) (turnIndex s) (peekedCardIds s)
          (quizState s) (gameLog s) (timeLeft s).
Definition setSettings (v : GameSettings) (s : State) : State :=
  mkState (phase s) v (players s) (turnIndex s) (peekedCardIds s)
          (quizState s) (gameLog s) (timeLeft s).
Definition setPlayers (v : list Player) (s : State) : State :=
  mkState (phase s) (settings s) v (turnIndex s) (peekedCardIds s)
          (quizState s) (gameLog s) (timeLeft s).
Definition setTurnIndex (v : number) (s : State) : State :=
  mkState (phase s) (settings s) (players s) v (peekedCardIds s)
          (quizState s) (gameLog s) (timeLeft s).
Definition setPeekedCardIds (v : list string) (s : State) : State :=
  mkState (phase s) (settings s) (players s) (turnIndex s) v
          (quizState s) (gameLog s) (timeLeft s).
Definition setQuizState (v : option QuizState) (s : State) : State :=
  mkState (phase s) (settings s) (players s) (turnIndex s) (peekedCardIds s)
          v (gameLog s) (timeLeft s).
Definition setGameLog (v : list string) (s : State) : State :=
  mkState (phase s) (settings s) (players s) (turnIndex s) (peekedCardIds s)
          (quizState s) v (timeLeft s).
Definition setTimeLeft (v : Z) (s : State) : State :=
  mkState (phase s) (settings s) (players s) (turnIndex s) (peekedCardIds s)
          (quizState s) (gameLog s) v.

(** [players[turnIndex]] *)
Definition activePlayer (s : State) : option Player :=
  match turnIndex s with
  | Num n => players s !! n
  | NaN => None
  end.

(** [activePlayer?.id === 'player-1'] *)
Definition isMyTurn (s : State) : bool :=
  match activePlayer s with
  | Some p => bool_decide (player_id p = "player-1")
  | None => false
  end.

Definition addLog (msg : string) (s : State) : State :=
  setGameLog (slice 0 5 (msg :: gameLog s)) s.

Definition gradeString (g : Grade) : string :=
  match g with
  | G8 => "8급" | G7 => "7급" | G6 => "6급" | G5 => "5급"
  | G4 => "4급" | G3 => "3급" | G2 => "2급" | G1 => "1급"
  end.

Definition modeString (m : GameMode) : string :=
  match m with STANDARD => "STANDARD" | DRAFT => "DRAFT" end.

(** ** Phase logic *)

(** [startGame] up to its [await]. *)
Definition startGame_begin (s : State) : State := setPhase LOADING s.

(** The players [startGame] builds from the fetched pool; [seeds i] is the
    shuffle of player [i]'s board. *)
Definition newPlayers (st : GameSettings) (hanjaPool : list HanjaData)
    (seeds : nat → list nat) : list Player :=
  (fun i =>
     mkPlayer ("player-" +:+ pretty (i + 1))
              (if (i =? 0)%nat then "P1 나" else "P" +:+ pretty (i + 1) +:+ " AI")
              (negb (i =? 0)%nat)
              (imap (fun idx h =>
                       mkCell (hanja_id h +:+ "-" +:+ pretty i) h false false idx)
                    (shuffle (seeds i) hanjaPool))
              0
              (COLORS !! i)
              0
              false) <$> seq 0 (playerCount st).

(** [startGame] from the point where the pool has arrived; [settings] is
    still the one of the render in which the game was started. *)
Definition startGame_resume (api : ApiOutcome) (seeds : nat → list nat) (r : Rand)
    (snap s : State) : State :=
  let hanjaPool := fetchHanjaData api (grade (settings snap)) 25 in
  let newPlayers := newPlayers (settings snap) hanjaPool seeds in
  let s := setPlayers newPlayers s in
  let startTurn := rand_floor r (length newPlayers) in
  let s := setTurnIndex (Num startTurn) s in
  let s := setPhase TURN_START s in
  addLog ("게임 시작! " +:+ gradeString (grade (settings snap)) +:+ ", "
          +:+ modeString (mode (settings snap)) +:+ " 모드.") s.

(** The turn-management effect, and the timer it starts. *)
Definition turnStartEffect (snap s : State) : State :=
  if decide (phase snap = TURN_START) then
    match activePlayer snap with
    | None => s
    | Some currentPlayer =>
        setPeekedCardIds [] (addLog (name currentPlayer +:+ "의 차례입니다.") s)
    end
  else s.

Definition turnStartTimeout (s : State) : State := setPhase PEEK s.

(** The timer-initialisation effect; it runs after a render in which
    [phase] changed. *)
Definition timerInitEffect (snap s : State) : State :=
  let s := if decide (phase snap = PEEK) then setTimeLeft TURN_TIMEOUT s else s in
  if decide (phase snap = QUIZ) then setTimeLeft QUIZ_TIMEOUT s else s.

(** ** Actions *)

Definition handlePeekClick (cell : Cell) (snap s : State) : State :=
  if negb (bool_decide (phase snap = PEEK)) || negb (isMyTurn snap) || isFlipped cell
  then s
  else if bool_decide (cell_id cell ∈ peekedCardIds snap) then s
  else if (length (peekedCardIds snap) <? 3)%nat
       then setPeekedCardIds (peekedCardIds s ++ [cell_id cell]) s
       else s.

Definition finishPeek (s : State) : State :=
  setPeekedCardIds [] (setPhase SELECT s).

(** [handleSelectCard]: [r] is the draw for the quiz type, [seed1] the
    shuffle of the distractor candidates, [seed2] that of the options.
    [players[0]] of an empty array is [undefined], and reading its
    [board] throws. *)
Definition handleSelectCard (r : Rand) (seed1 seed2 : list nat) (h : HanjaData)
    (snap s : State) : option State :=
  let isHanjaToHunEum := rand_gt r 1 2 in
  p0 ← players snap !! 0;
  let allHanja := hanja <$> board p0 in
  let distractors :=
    slice 0 3 (shuffle seed1
                 (List.filter (fun x => negb (String.eqb (hanja_id x) (hanja_id h)))
                              allHanja)) in
  let options := shuffle seed2 (h :: distractors) in
  let s := setQuizState
             (Some (mkQuiz (Some h)
                           (if isHanjaToHunEum then HANJA_TO_HUNEUM else HUNEUM_TO_HANJA)
                           options (hanja_id h) ∅ false)) s in
  let s := setPhase QUIZ s in
  Some (addLog "퀴즈 대결 시작!" s).

(** The updater [handleQuizAnswer] hands to [setQuizState]. *)
Definition handleQuizAnswer_update (playerId optionId : string)
    (prev : option QuizState) : option QuizState :=
  match prev with
  | None => None
  | Some prev =>
      if truthy (answers prev !! playerId) then Some prev
      else
        let newAnswers := <[playerId := optionId]> (answers prev) in
        Some (mkQuiz (targetHanja prev) (type prev) (options prev)
                     (correctOptionId prev) newAnswers (resultsShown prev))
  end.

Definition handleQuizAnswer (playerId optionId : string) (s : State) : State :=
  setQuizState (handleQuizAnswer_update playerId optionId (quizState s)) s.

(** ** Timer countdown and expiry *)

Definition timerRunning (snap : State) : bool :=
  (bool_decide (phase snap = PEEK) || bool_decide (phase snap = SELECT)
   || bool_decide (phase snap = QUIZ)) && (0 <? timeLeft snap)%Z.

(** The interval callback. *)
Definition timerTick (s : State) : State := setTimeLeft (timeLeft s - 1) s.

(** [players.filter(p => !quizState.answers[p.id])] *)
Definition missingPlayers (players : list Player) (q : QuizState) : list Player :=
  List.filter (fun p => negb (truthy (answers q !! player_id p))) players.

(** The updater of the QUIZ branch: [missing] was computed from the
    rendered [quizState], the marker is written into [prev]. *)
Definition timeoutFill_update (missing : list Player) (prev : option QuizState)
  : option QuizState :=
  match prev with
  | None => None
  | Some prev =>
      let newAnswers :=
        foldl (fun newAnswers p => <[player_id p := TIMEOUT_MARKER]> newAnswers)
              (answers prev) missing in
      Some (mkQuiz (targetHanja prev) (type prev) (options prev)
                   (correctOptionId prev) newAnswers (resultsShown prev))
  end.

(** [unrevealed.length > 0 ? shuffle(unrevealed)[0] : activePlayer.board[0]] *)
Definition pickTarget (seed : list nat) (p : Player) : option Cell :=
  let unrevealed := List.filter (fun c => negb (isFlipped c)) (board p) in
  if (0 <? length unrevealed)%nat then shuffle seed unrevealed !! 0
  else board p !! 0.

(** The countdown effect of the render of [snap].  With time left it
    only installs the interval; at zero it takes the timeout branch of
    the phase.  [target.hanja] of an [undefined] target throws. *)
Definition timerExpiryEffect (r : Rand) (seed seed1 seed2 : list nat) (snap s : State)
  : option State :=
  if timerRunning snap then Some s
  else if bool_decide (timeLeft snap = 0%Z) then
    match phase snap with
    | PEEK =>
        if bool_decide (phase s = PEEK) then Some (finishPeek s) else Some s
    | SELECT =>
        match activePlayer snap with
        | Some ap =>
            if bool_decide (phase s = SELECT) then
              let target := pickTarget seed ap in
              let s := addLog "시간 초과! 랜덤 카드가 선택되었습니다." s in
              t ← target;
              handleSelectCard r seed1 seed2 (hanja t) snap s
            else Some s
        | None => Some s
        end
    | QUIZ =>
        match quizState snap with
        | Some q =>
            if resultsShown q then Some s
            else
              let missing := missingPlayers (players snap) q in
              if (0 <? length missing)%nat
              then Some (setQuizState (timeoutFill_update missing (quizState s)) s)
              else Some s
        | None => Some s
        end
    | _ => Some s
    end
  else Some s.

(** ** AI behaviour controller ([runAITurn]) *)

(** PEEK part, after the think time: the cells the AI looks at. *)
Definition aiPeek (seed : list nat) (ap : Player) (s : State) : State :=
  let unrevealed := List.filter (fun c => negb (isFlipped c)) (board ap) in
  let peekCount := Nat.min 2 (length unrevealed) in
  let toPeek := cell_id <$> slice 0 peekCount (shuffle seed unrevealed) in
  setPeekedCardIds toPeek s.

(** SELECT part, after the think time. *)
Definition aiSelect (r : Rand) (seed seed1 seed2 : list nat) (ap : Player)
    (snap s : State) : option State :=
  let target := pickTarget seed ap in
  if bool_decide (phase s = SELECT) then
    t ← target; handleSelectCard r seed1 seed2 (hanja t) snap s
  else Some s.

(** QUIZ part, the answer of the AI whose turn it is:
    [isCorrect ? quizState.correctOptionId : shuffle(quizState.options)[0].id]
    with [isCorrect = Math.random() > 0.2]. *)
Definition aiAnswerId (r : Rand) (seed : list nat) (q : QuizState) : option string :=
  let isCorrect := rand_gt r 1 5 in
  if isCorrect then Some (correctOptionId q)
  else o ← shuffle seed (options q) !! 0; Some (hanja_id o).

Definition aiAnswer (r : Rand) (seed : list nat) (ap : Player) (q : QuizState)
    (snap s : State) : option State :=
  if bool_decide (phase s = QUIZ) && (0 <? timeLeft snap)%Z then
    answerId ← aiAnswerId r seed q;
    Some (handleQuizAnswer (player_id ap) answerId s)
  else Some s.

(** The answer of the effect that lets the other AI players answer:
    [isCorrect ? correctOptionId
               : shuffle(options.filter(o => o.id !== correctOptionId))[0]?.id
                 || options[0].id]
    with [isCorrect = Math.random() > 0.3]. *)
Definition bystanderAnswerId (r : Rand) (seed : list nat) (q : QuizState)
  : option string :=
  let isCorrect := rand_gt r 3 10 in
  if isCorrect then Some (correctOptionId q)
  else
    let wrong :=
      List.filter (fun o => negb (String.eqb (hanja_id o) (correctOptionId q)))
                  (options q) in
    match shuffle seed wrong !! 0 with
    | Some o =>
        if truthy (Some (hanja_id o)) then Some (hanja_id o)
        else o0 ← options q !! 0; Some (hanja_id o0)
    | None => o0 ← options q !! 0; Some (hanja_id o0)
    end.

Definition bystanderAnswer (r : Rand) (seed : list nat) (p : Player) (q : QuizState)
    (s : State) : option State :=
  if bool_decide (phase s = QUIZ) && negb (truthy (answers q !! player_id p)) then
    targetOption ← bystanderAnswerId r seed q;
    Some (handleQuizAnswer (player_id p) targetOption s)
  else Some s.

(** ** Quiz evaluation *)

(** [players.every(p => quizState.answers[p.id])] *)
Definition allAnswered (players : list Player) (q : QuizState) : bool :=
  forallb (fun p => truthy (answers q !! player_id p)) players.

(** [prev => prev ? { ...prev, resultsShown: true } : null] *)
Definition showResults_update (prev : option QuizState) : option QuizState :=
  match prev with
  | Some prev =>
      Some (mkQuiz (targetHanja prev) (type prev) (options prev)
                   (correctOptionId prev) (answers prev) true)
  | None => None
  end.

(** The effect that shows the results once everybody has answered. *)
Definition showResultsEffect (snap s : State) : State :=
  if bool_decide (phase snap = QUIZ) then
    match quizState snap with
    | Some q =>
        if allAnswered (players snap) q && negb (resultsShown q)
        then setQuizState (showResults_update (quizState s)) s
        else s
    | None => s
    end
  else s.

(** [{ ...cell, isFlipped: true }] *)
Definition flipCell (cell : Cell) : Cell :=
  mkCell (cell_id cell) (hanja cell) true (isPeeked cell) (gridIndex cell).

(** The [p.board.map] of [evaluateRound], under its own name. *)
Definition flipBoard (correctHanjaId : string) (b : list Cell) : list Cell :=
  (fun cell => if String.eqb (hanja_id (hanja cell)) correctHanjaId
               then flipCell cell else cell) <$> b.

(** The [players.map] of [evaluateRound]. *)
Definition nextPlayers (players : list Player) (q : QuizState)
  : option (list Player) :=
  let correctHanjaId := correctOptionId q in
  mapM (fun p =>
          let userAnswer := answers q !! player_id p in
          let isCorrect := bool_decide (userAnswer = Some correctHanjaId) in
          if isCorrect then
            let updatedBoard :=
              (fun cell =>
                 if String.eqb (hanja_id (hanja cell)) correctHanjaId
                 then flipCell cell else cell) <$> board p in
            bingoCount ← checkBingo updatedBoard;
            Some (mkPlayer (player_id p) (name p) (isAI p) updatedBoard bingoCount
                           (color p) (bonusGauge p) (hasShield p))
          else Some p)
       players.

(** [nextPlayers.find(p => p.score >= settings.winLines)] *)
Definition findWinner (st : GameSettings) (ps : list Player) : option Player :=
  List.find (fun p => (winLines st <=? score p)%nat) ps.

(** [(prev + 1) % players.length] *)
Definition nextTurn (prev : number) (len : nat) : number :=
  match prev with
  | Num t => if (len =? 0)%nat then NaN else Num ((t + 1) mod len)
  | NaN => NaN
  end.

(** [evaluateRound] reads [quizState], [players] and [settings] of its
    render; only the turn index and the log are taken from the state it
    runs in. *)
Definition evaluateRound (snap s : State) : option State :=
  match quizState snap with
  | None => Some s
  | Some q =>
      nextPlayers ← nextPlayers (players snap) q;
      let s := setPlayers nextPlayers s in
      match findWinner (settings snap) nextPlayers with
      | Some winner =>
          let s := setPhase GAME_OVER s in
          Some (addLog (name winner +:+ " 승리!") s)
      | None =>
          let s := setPhase TURN_START s in
          let s := setTurnIndex (nextTurn (turnIndex s) (length (players snap))) s in
          Some (setQuizState None s)
      end
  end.

(** ** The component as a transition system

    An event is one callback of the component: a click handler, a timer
    callback, the continuation of an [await], or the body of an effect.
    [fire e snap s] runs it to completion: [snap] is the state of the
    render that created the callback, [s] the state when it runs.  The
    conditions under which a render creates the callback (the control is
    rendered and enabled, the effect schedules the timer) are tested on
    [snap]; what the callback itself tests through [phaseRef] is tested
    on [s].  The step is [None] when there is no such callback or when it
    throws.  React runs an effect after the renders in which its
    dependencies changed; here an effect may fire after any render, which
    adds runs and removes none. *)

Inductive Event :=
  | SetPlayerCount (num : nat)
  | SetWinLines (num : nat)
  | SetGrade (g : Grade)
  | StartGameClick
  | FetchResolved (api : ApiOutcome) (seeds : nat → list nat) (r : Rand)
  | TurnStartEffect
  | TurnStartTimeout
  | TimerInitEffect
  | TimerTick
  | TimerExpiry (r : Rand) (seed seed1 seed2 : list nat)
  | AIPeek (seed : list nat)
  | AIFinishPeek
  | AISelect (r : Rand) (seed seed1 seed2 : list nat)
  | AIAnswer (r : Rand) (seed : list nat)
  | BystanderAnswer (i : nat) (r : Rand) (seed : list nat)
  | CardClick (k : nat) (r : Rand) (seed1 seed2 : list nat)
  | FinishPeekClick
  | OptionClick (k : nat)
  | ShowResultsEffect
  | EvaluateRoundTimeout
  | ResetClick.

(** The board screen is rendered outside SETUP and LOADING when there is
    an active player. *)
Definition boardScreen (snap : State) : bool :=
  negb (bool_decide (phase snap = SETUP)) && negb (bool_decide (phase snap = LOADING))
  && bool_decide (is_Some (activePlayer snap))
  && negb (bool_decide (players snap = [])).

(** [onClick] of the card of [cell] on the human's board. *)
Definition cardOnClick (r : Rand) (seed1 seed2 : list nat) (cell : Cell)
    (snap s : State) : option State :=
  let s1 := if bool_decide (phase snap = PEEK) then handlePeekClick cell snap s
            else s in
  if bool_decide (phase snap = SELECT) && isMyTurn snap
  then handleSelectCard r seed1 seed2 (hanja cell) snap s1
  else Some s1.

(** [onClick] of an option button of [QuizBattle], with
    [onAnswer = optId => handleQuizAnswer(players[0].id, optId)]. *)
Definition optionOnClick (option : HanjaData) (me : Player) (q : QuizState)
    (snap s : State) : State :=
  let hasAnswered := truthy (answers q !! player_id me) in
  if negb hasAnswered && negb (resultsShown q) && (0 <? timeLeft snap)%Z
  then handleQuizAnswer (player_id me) (hanja_id option) s
  else s.

Definition fire (e : Event) (snap s : State) : option State :=
  match e with
  | SetPlayerCount num =>
      if bool_decide (phase snap = SETUP) && bool_decide (num ∈ [2; 3; 4])
      then Some (setSettings (mkSettings (grade (settings snap)) num
                                         (mode (settings snap))
                                         (winLines (settings snap))) s)
      else None
  | SetWinLines num =>
      if bool_decide (phase snap = SETUP) && bool_decide (num ∈ [1; 3])
      then Some (setSettings (mkSettings (grade (settings snap))
                                         (playerCount (settings snap))
                                         (mode (settings snap)) num) s)
      else None
  | SetGrade g =>
      if bool_decide (phase snap = SETUP)
      then Some (setSettings (mkSettings g (playerCount (settings snap))
                                         (mode (settings snap))
                                         (winLines (settings snap))) s)
      else None
  | StartGameClick =>
      if bool_decide (phase snap = SETUP) then Some (startGame_begin s) else None
  | FetchResolved api seeds r =>
      if bool_decide (phase snap = SETUP)
      then Some (startGame_resume api seeds r snap s) else None
  | TurnStartEffect => Some (turnStartEffect snap s)
  | TurnStartTimeout =>
      if bool_decide (phase snap = TURN_START)
         && bool_decide (is_Some (activePlayer snap))
      then Some (turnStartTimeout s) else None
  | TimerInitEffect => Some (timerInitEffect snap s)
  | TimerTick => if timerRunning snap then Some (timerTick s) else None
  | TimerExpiry r seed seed1 seed2 => timerExpiryEffect r seed seed1 seed2 snap s
  | AIPeek seed =>
      ap ← activePlayer snap;
      if isAI ap && bool_decide (phase snap = PEEK) then Some (aiPeek seed ap s)
      else None
  | AIFinishPeek =>
      ap ← activePlayer snap;
      if isAI ap && bool_decide (phase snap = PEEK) then Some (finishPeek s)
      else None
  | AISelect r seed seed1 seed2 =>
      ap ← activePlayer snap;
      if isAI ap && bool_decide (phase snap = SELECT)
      then aiSelect r seed seed1 seed2 ap snap s else None
  | AIAnswer r seed =>
      ap ← activePlayer snap;
      q ← quizState snap;
      if isAI ap && bool_decide (phase snap = QUIZ)
         && negb (truthy (answers q !! player_id ap))
      then aiAnswer r seed ap q snap s else None
  | BystanderAnswer i r seed =>
      p ← players snap !! i;
      q ← quizState snap;
      if bool_decide (phase snap = QUIZ) && isAI p
         && negb (truthy (answers q !! player_id p))
      then bystanderAnswer r seed p q s else None
  | CardClick k r seed1 seed2 =>
      me ← players snap !! 0;
      cell ← board me !! k;
      let disabled := negb (isMyTurn snap) && negb (bool_decide (phase snap = QUIZ)) in
      if boardScreen snap && negb disabled then cardOnClick r seed1 seed2 cell snap s
      else None
  | FinishPeekClick =>
      let disabled := (length (peekedCardIds snap) <? 1)%nat in
      if boardScreen snap && isMyTurn snap && bool_decide (phase snap = PEEK)
         && negb disabled
      then Some (finishPeek s) else None
  | OptionClick k =>
      me ← players snap !! 0;
      q ← quizState snap;
      option ← options q !! k;
      let disabled :=
        truthy (answers q !! player_id me) || resultsShown q
        || bool_decide (timeLeft snap = 0%Z) in
      if boardScreen snap && bool_decide (phase snap = QUIZ)
         && bool_decide (is_Some (targetHanja q)) && negb disabled
      then Some (optionOnClick option me q snap s) else None
  | ShowResultsEffect => Some (showResultsEffect snap s)
  | EvaluateRoundTimeout =>
      q ← quizState snap;
      if bool_decide (phase snap = QUIZ) && allAnswered (players snap) q
         && negb (resultsShown q)
      then evaluateRound snap s else None
  | ResetClick =>
      if boardScreen snap && bool_decide (phase snap = GAME_OVER)
      then Some (setPhase SETUP s) else None
  end.

(** A run of the component: the events in the order they fire, each with
    the age of its render, the number of steps since the state it was
    created from (0 for the current state).  [past] holds the earlier
    states, the latest first. *)
Fixpoint run (trace : list (Event * nat)) (past : list State) (s : State)
  : option State :=
  match trace with
  | [] => Some s
  | (e, age) :: trace' =>
      snap ← (s :: past) !! age;
      s' ← fire e snap s;
      run trace' (s :: past) s'
  end.

Definition Reachable (s : State) : Prop := ∃ trace, run trace [] initialState = Some s.

(** The callbacks of the latest render, in order. *)
Definition now (es : list Event) : list (Event * nat) := (fun e => (e, 0)) <$> es.

(** ** Quiz answers over a quiz's lifetime

    The two writers of [answers]: [handleQuizAnswer], and the timeout
    branch of the countdown effect run on the state it rendered. *)





(** ** Well-formed states

    What every state of a run satisfies: the items on the boards and in
    the quiz carry ids given by [fetchHanjaData], and a recorded answer
    is such an id or the timeout marker. *)




(** ** Sample data for the worked examples *)


(** The same quiz before anybody answered. *)
Definition quizFresh : QuizState :=
  mkQuiz (Some (mkHanja "1" "天" "하늘" "천" "하늘 천")) HANJA_TO_HUNEUM
         (slice 0 4 FALLBACK_HANJA) "1" ∅ false.

(** Starting a game without an API key: two players, boards in pool
    order, player-1 to move.  The continuation of [startGame] belongs to
    the render in which the button was clicked, one step back. *)
Definition startEvents : list (Event * nat) :=
  [(StartGameClick, 0);
   (FetchResolved ApiKeyMissing (fun _ => []) (mkRand 0 0), 1)].

Definition gameStarted : option State := run startEvents [] initialState.

(** A whole game on the fallback pool.  In a round the player to move
    selects a card, the human (player-1) picks the first option, which
    with the empty seed is the correct one, and the AI's draw 0 sends it
    down its incorrect branch.  The evaluation was scheduled by the
    render before the results were shown.  The human's cells 0 to 4 get
    flipped in five rounds and the first row wins. *)
Definition humanRound (k : nat) : list (Event * nat) :=
  now [TurnStartEffect; TurnStartTimeout; TimerInitEffect;
       CardClick k (mkRand 0 0) [] []; FinishPeekClick;
       CardClick k (mkRand 0 0) [] []; TimerInitEffect;
       OptionClick 0; BystanderAnswer 1 (mkRand 0 0) [];
       ShowResultsEffect]
  ++ [(EvaluateRoundTimeout, 1)].

Definition aiRound (j : nat) : list (Event * nat) :=
  now [TurnStartEffect; TurnStartTimeout; TimerInitEffect;
       AIPeek []; AIFinishPeek;
       AISelect (mkRand 0 0) (replicate j 1) [] []; TimerInitEffect;
       OptionClick 0; BystanderAnswer 1 (mkRand 0 0) [];
       ShowResultsEffect]
  ++ [(EvaluateRoundTimeout, 1)].

Definition firstGame : list (Event * nat) :=
  startEvents
  ++ humanRound 0 ++ aiRound 1 ++ humanRound 2 ++ aiRound 3 ++ humanRound 4.

Definition playAgain : list (Event * nat) :=
  [(ResetClick, 0); (StartGameClick, 0);
   (FetchResolved ApiKeyMissing (fun _ => []) (mkRand 0 0), 1)].

(** The event in which [startGame] installs newly built boards. *)
Definition isNewGame (e : Event) : bool :=
  match e with
  | FetchResolved _ _ _ => true
  | _ => false
  end.

(** A flipped cell, identified by player index and grid position, is
    still there and still flipped. *)
Definition keepsFlips (ps ps' : list Player) : Prop :=
  ∀ i p k c,
    ps !! i = Some p → board p !! k = Some c → isFlipped c = true →
    ∃ p' c', ps' !! i = Some p' ∧ board p' !! k = Some c'
             ∧ isFlipped c' = true
             ∧ player_id p' = player_id p ∧ cell_id c' = cell_id c
             ∧ hanja c' = hanja c.

(** A board with the given flip flags, on the fallback items. *)
Definition boardOfFlags (flags : list bool) : list Cell :=
  imap (fun idx '(h, f) => mkCell (hanja_id h +:+ "-0") h f false idx)
       (zip FALLBACK_HANJA flags).

(** Row 0 flipped except the cell at grid index 4, and the same with the
    rest of the secondary diagonal (8, 12, 16, 20) flipped too. *)
Definition rowAlmost : list bool :=
  [true; true; true; true; false] ++ replicate 20 false.
Definition rowAndDiagonalAlmost : list bool :=
  [true; true; true; true; false;
   false; false; false; true; false;
   false; false; true; false; false;
   false; true; false; false; false;
   true; false; false; false; false].

(** The two players of a new game on the fallback pool, and the quiz on
    item ["1"] after player-1 answered it and player-2 timed out. *)
Definition samplePlayers : list Player :=
  newPlayers (mkSettings G8 2 STANDARD 1) (fetchHanjaData ApiKeyMissing G8 25)
             (fun _ => []).

Definition quizAnswered : QuizState :=
  mkQuiz (Some (mkHanja "1" "天" "하늘" "천" "하늘 천")) HANJA_TO_HUNEUM
         (slice 0 4 FALLBACK_HANJA) "1"
         {["player-1" := "1"; "player-2" := TIMEOUT_MARKER]} false.

(** The first quiz of a game, answered by the human only, with the
    countdown run down to zero. *)
Definition quizRunOut : list (Event * nat) :=
  startEvents
  ++ now ([TurnStartEffect; TurnStartTimeout; TimerInitEffect;
           CardClick 0 (mkRand 0 0) [] []; FinishPeekClick;
           CardClick 0 (mkRand 0 0) [] []; TimerInitEffect; OptionClick 0]
          ++ replicate 10 TimerTick).

(** A run in which every round evaluation reads boards that are still
    the current ones. *)
Fixpoint evaluatesCurrentBoards (trace : list (Event * nat)) (past : list State)
    (s : State) : Prop :=
  match trace with
  | [] => True
  | (e, age) :: trace' =>
      match (s :: past) !! age with
      | Some snap =>
          (e = EvaluateRoundTimeout → players snap = players s)
          ∧ match fire e snap s with
            | Some s' => evaluatesCurrentBoards trace' (s :: past) s'
            | None => True
            end
      | None => True
      end
  end.

(** The first turn of a game falls to the AI and starts with the
    countdown at 0.  The countdown effect ends PEEK at once, while the
    AI's peek routine of that render is still waiting.  The AI selects,
    the quiz is answered and its evaluation is scheduled; then the peek
    routine wakes up and calls [finishPeek], the AI selects again, the
    second quiz is answered and evaluated too.  Both evaluations hold the
    boards of the renders that scheduled them. *)
Definition staleRun : list (Event * nat) :=
  [(StartGameClick, 0);
   (FetchResolved ApiKeyMissing (fun _ => []) (mkRand 1 0), 1);
   (TurnStartEffect, 0);
   (TurnStartTimeout, 0);
   (TimerInitEffect, 0);
   (TimerExpiry (mkRand 0 0) [] [] [], 1);
   (AISelect (mkRand 0 0) [] [] [], 0);
   (TimerInitEffect, 0);
   (OptionClick 0, 0);
   (BystanderAnswer 1 (mkRand 0 0) [], 0);
   (ShowResultsEffect, 0);
   (AIFinishPeek, 7);
   (AISelect (mkRand 0 0) [1] [] [], 0);
   (TimerInitEffect, 0);
   (OptionClick 0, 0);
   (BystanderAnswer 1 (mkRand 0 0) [], 0);
   (ShowResultsEffect, 0);
   (EvaluateRoundTimeout, 7)].

Definition staleEvaluation : list (Event * nat) := [(EvaluateRoundTimeout, 2)].
(** ** Rendering

    What the render of [App], [Card] and [QuizBattle] computes from the
    state, as far as it decides what a player sees. *)

(** The mark [renderCellOverlay] lays over a cell while the results of a
    quiz are shown. *)
Inductive Overlay := CheckMark | CrossMark.

(** [renderCellOverlay(hanjaId, player)] in the render of [s]:
    [phase === QUIZ && quizState?.resultsShown
     && quizState.targetHanja?.id === hanjaId]. *)
Definition renderCellOverlay (s : State) (hanjaId : string) (player : Player)
  : option Overlay :=
  match quizState s with
  | Some q =>
      if bool_decide (phase s = QUIZ) && resultsShown q
         && bool_decide (hanja_id <$> targetHanja q = Some hanjaId)
      then
        let isCorrect :=
          bool_decide (answers q !! player_id player = Some (correctOptionId q)) in
        Some (if isCorrect then CheckMark else CrossMark)
      else None
  | None => None
  end.

(** [Card] turns its face up when [isRevealed || isPeeked]; [App] passes
    [isRevealed = cell.isFlipped] and
    [isPeeked = peekedCardIds.includes(cell.id)]. *)
Definition cardFaceUp (s : State) (cell : Cell) : bool :=
  isFlipped cell || bool_decide (cell_id cell ∈ peekedCardIds s).

(** [QuizBattle]: the avatars on an option once the results are shown,
    [players.filter(p => answers[p.id] === option.id)]. *)
Definition answerAvatars (players : list Player) (q : QuizState)
    (option : HanjaData) : list Player :=
  List.filter (fun p => bool_decide (answers q !! player_id p = Some (hanja_id option)))
              players.

(** [s.includes(sub)] and [s.replace(/[^0-9]/g, '')].  Strings are kept
    as UTF-8 bytes; a substring test and the removal of the characters
    other than [0]-[9] give the same answers on bytes as on characters,
    because the bytes of a character outside ASCII are all above 127. *)
Fixpoint includes (sub s : string) : bool :=
  String.prefix sub s
  || match s with
     | EmptyString => false
     | String _ s' => includes sub s'
     end.

Definition isDigit (c : Ascii.ascii) : bool :=
  (48 <=? Ascii.nat_of_ascii c)%nat && (Ascii.nat_of_ascii c <=? 57)%nat.

Fixpoint keepDigits (s : string) : string :=
  match s with
  | EmptyString => EmptyString
  | String c s' => if isDigit c then String c (keepDigits s') else keepDigits s'
  end.

(** The text of an avatar:
    [p.name.includes("나") ? "Me" : p.name.replace(/[^0-9]/g, '')]. *)
Definition avatarLabel (name : string) : string :=
  if includes "나" name then "Me" else keepDigits name.

(** The name in the title of the game-over modal,
    [players.find(p => p.score >= settings.winLines)?.name]. *)
Definition gameOverWinnerName (s : State) : option string :=
  name <$> findWinner (settings s) (players s).

(** ** What a run keeps *)

(** The settings the setup screen can produce. *)
Definition settingsOk (st : GameSettings) : Prop :=
  playerCount st ∈ [2; 3; 4] ∧ winLines st ∈ [1; 3] ∧ mode st = STANDARD.

(** Player number [i] as [startGame] creates it, whatever its board
    holds and its score is. *)
Definition seatOk (i : nat) (p : Player) : Prop :=
  player_id p = "player-" +:+ pretty (i + 1)
  ∧ name p = (if (i =? 0)%nat then "P1 나" else "P" +:+ pretty (i + 1) +:+ " AI")
  ∧ isAI p = negb (i =? 0)%nat
  ∧ color p = COLORS !! i
  ∧ bonusGauge p = 0
  ∧ hasShield p = false
  ∧ ∀ k c, board p !! k = Some c →
           cell_id c = hanja_id (hanja c) +:+ "-" +:+ pretty i
           ∧ gridIndex c = k
           ∧ isPeeked c = false.

Definition rosterOk (ps : list Player) : Prop :=
  length ps ∈ [0; 2; 3; 4] ∧ ∀ i p, ps !! i = Some p → seatOk i p.

(** All boards hold the same items, with pairwise different ids. *)
Definition samePool (ps : list Player) : Prop :=
  ∃ pool : list HanjaData,
    NoDup (hanja_id <$> pool) ∧ ∀ p, p ∈ ps → hanja <$> board p ≡ₚ pool.

(** The score is the line count of the board. *)
Definition scoresOk (ps : list Player) : Prop :=
  ∀ p, p ∈ ps →
       (25 ≤ length (board p) → checkBingo (board p) = Some (score p))
       ∧ (length (board p) < 25 →
          score p = 0 ∧ Forall (fun c => isFlipped c = false) (board p)).

(** ** More sample data *)

(** The sample players in QUIZ on [quizFresh] with the countdown at
    zero, player-1 to move. *)
Definition quizAtZero : State :=
  mkState QUIZ (mkSettings G8 2 STANDARD 1) samplePlayers (Num 0) []
          (Some quizFresh) [] 0.


Definition quizShown : QuizState :=
  mkQuiz (targetHanja quizAnswered) (type quizAnswered) (options quizAnswered)
         (correctOptionId quizAnswered) (answers quizAnswered) true.

Definition quizResults : State :=
  mkState QUIZ (mkSettings G8 2 STANDARD 1) samplePlayers (Num 0) []
          (Some quizShown) [] 0.

(** The sample players in PEEK with the countdown at zero, the AI to
    move. *)
Definition peekAtZero : State :=
  mkState PEEK (mkSettings G8 2 STANDARD 1) samplePlayers (Num 1) [] None [] 0.

(** * Properties *)

(** ** BingoEvaluator *)

Section Bingo.

Lemma foldl_count {A} (p : A → bool) l n :
  foldl (fun lines i => if p i then lines + 1 else lines) n l
  = n + length (List.filter p l).
Proof.
  revert n; induction l as [|x l IH]; intros n; simpl; [lia|].
  rewrite IH. destruct (p x); simpl; lia.
Qed.

Lemma forM_count (inner : nat → option bool) (q : nat → bool) l n :
  (∀ i, i ∈ l → inner i = Some (q i)) →
  forM l (fun i lines => colFull ← inner i;
                         Some (if colFull : bool then lines + 1 else lines)) n
  = Some (n + length (List.filter q l)).
Proof.
  revert n; induction l as [|x l IH]; intros n H; simpl.
  { f_equal; lia. }
  rewrite (H x) by left. simpl. rewrite IH by (intros; apply H; by right).
  f_equal. destruct (q x); simpl; lia.
Qed.

Lemma length_filter_map {A B} (f : A → B) (p : B → bool) (q : A → bool) l :
  (∀ x, x ∈ l → q x = p (f x)) →
  length (List.filter q l) = length (List.filter p (map f l)).
Proof.
  induction l as [|x l IH]; intros H; simpl; [done|].
  rewrite (H x) by left.
  destruct (p (f x)); simpl; rewrite IH; auto; intros; apply H; by right.
Qed.

Local Ltac board25 b H :=
  do 25 (destruct b as [|? b]; [discriminate H|]);
  destruct b; [clear H|discriminate H].

Local Tactic Notation "each_index" hyp(Hi) tactic3(tac) :=
  repeat (apply elem_of_cons in Hi as [->|Hi]; [tac|]);
  by apply elem_of_nil in Hi.

Local Ltac flags :=
  cbn;
  repeat match goal with
         | |- context [isFlipped ?c] => destruct (isFlipped c)
         end;
  reflexivity.

Lemma row_check board i :
  length board = 25 → i ∈ seq 0 5 →
  forallb isFlipped (slice (i * 5) ((i + 1) * 5) board)
  = lineCompleted board (rowIdx i).
Proof. intros H Hi. board25 board H. each_index Hi reflexivity. Qed.

Lemma col_check board i :
  length board = 25 → i ∈ seq 0 5 →
  forM (seq 0 5) (fun j colFull =>
     c ← board !! (j * 5 + i);
     Some (if negb (isFlipped c) then false else colFull)) true
  = Some (lineCompleted board (colIdx i)).
Proof. intros H Hi. board25 board H. each_index Hi flags. Qed.

Lemma diag_check board d :
  length board = 25 → d ∈ spec_diagonals →
  everyM (fun i => c ← board !! i; Some (isFlipped c)) d
  = Some (lineCompleted board d).
Proof. intros H Hi. board25 board H. each_index Hi flags. Qed.

Lemma checkBingo_spec board :
  length board = 25 → checkBingo board = Some (spec_countCompletedLines board).
Proof.
  intros H. unfold checkBingo.
  rewrite foldl_count.
  erewrite forM_count; last first.
  { intros i Hi. apply (col_check board i H Hi). }
  cbn [mbind option_bind].
  rewrite (diag_check board [0; 6; 12; 18; 24] H) by left.
  rewrite (diag_check board [4; 8; 12; 16; 20] H) by (right; left).
  cbn [mbind option_bind]. f_equal.
  unfold spec_countCompletedLines, spec_lines.
  rewrite !List.filter_app, !length_app.
  rewrite (length_filter_map rowIdx (lineCompleted board))
    by (intros; by apply row_check).
  rewrite (length_filter_map colIdx (lineCompleted board)) by done.
  change (map rowIdx (seq 0 5)) with spec_rows.
  change (map colIdx (seq 0 5)) with spec_cols.
  unfold spec_diagonals. cbn [List.filter].
  destruct (lineCompleted board [0; 6; 12; 18; 24]),
           (lineCompleted board [4; 8; 12; 16; 20]); cbn [length]; lia.
Qed.

Lemma flippedAt_all (b : bool) board i :
  Forall (fun c => isFlipped c = b) board → i < length board →
  flippedAt board i = b.
Proof.
  intros Hall Hi. unfold flippedAt.
  destruct (lookup_lt_is_Some_2 board i Hi) as [c Hc]. rewrite Hc.
  rewrite Forall_forall in Hall. apply Hall. by eapply list_elem_of_lookup_2.
Qed.

Lemma spec_lines_shape :
  Forall (fun line => line ≠ [] ∧ Forall (fun i => i < 25) line) spec_lines.
Proof. repeat constructor; (done || lia). Qed.

Lemma spec_count_unflipped board :
  length board = 25 → Forall (fun c => isFlipped c = false) board →
  spec_countCompletedLines board = 0.
Proof.
  intros Hlen Hall. unfold spec_countCompletedLines.
  pose proof spec_lines_shape as Hs.
  induction Hs as [|line ls [Hne Hin] _ IH]; [done|].
  simpl. destruct line as [|i line]; [done|].
  apply Forall_cons in Hin as [Hi _]. simpl.
  rewrite (flippedAt_all false) by (done || lia). done.
Qed.

Lemma spec_count_flipped board :
  length board = 25 → Forall (fun c => isFlipped c = true) board →
  spec_countCompletedLines board = 12.
Proof.
  intros Hlen Hall. unfold spec_countCompletedLines.
  assert (∀ line, Forall (fun i => i < 25) line → lineCompleted board line = true)
    as Hline.
  { intros line Hin. unfold lineCompleted. apply forallb_forall.
    intros i Hi%list_elem_of_In. rewrite Forall_forall in Hin.
    apply (flippedAt_all true); [done|]. rewrite Hlen. by apply Hin. }
  change 12 with (length spec_lines).
  pose proof spec_lines_shape as Hs.
  induction Hs as [|line ls [_ Hin] _ IH]; [done|].
  simpl. rewrite Hline by done. simpl. by rewrite IH.
Qed.

(** C3. On a board of 25 cells [checkBingo] returns the number of the
    twelve lines (5 rows, 5 columns, the diagonals 0-6-12-18-24 and
    4-8-12-16-20) all of whose cells are flipped; it is 0 when no cell
    is flipped and 12 when all are. *)
Theorem checkBingo_counts_completed_lines (board : list Cell) :
  length board = 25 →
  checkBingo board = Some (spec_countCompletedLines board)
  ∧ (Forall (fun c => isFlipped c = false) board → checkBingo board = Some 0)
  ∧ (Forall (fun c => isFlipped c = true) board → checkBingo board = Some 12).
Proof.
  intros H. rewrite checkBingo_spec by done. split; [done|].
  split; intros Hall; f_equal.
  - by apply spec_count_unflipped.
  - by apply spec_count_flipped.
Qed.

End Bingo.

(** ** The shuffle *)

Section Shuffle.
Context {A : Type}.
Implicit Types (l : list A) (seed : list nat).

Lemma insertAt_Permutation k (x : A) l : insertAt k x l ≡ₚ x :: l.
Proof.
  unfold insertAt. rewrite <- Permutation_middle.
  by rewrite take_drop.
Qed.

Lemma shuffle_cons seed (x : A) l :
  shuffle seed (x :: l) = insertAt (hd 0 seed) x (shuffle (tl seed) l).
Proof. reflexivity. Qed.

Lemma shuffle_Permutation seed l : shuffle seed l ≡ₚ l.
Proof.
  revert seed; induction l as [|x l IH]; intros seed; [done|].
  by rewrite shuffle_cons, insertAt_Permutation, IH.
Qed.

Lemma shuffle_length seed l : length (shuffle seed l) = length l.
Proof. by rewrite shuffle_Permutation. Qed.

Lemma elem_of_shuffle seed l x : x ∈ shuffle seed l ↔ x ∈ l.
Proof. by rewrite shuffle_Permutation. Qed.

(** Every rearrangement is the shuffle of some seed: the model leaves
    out no order the engine's sort could produce. *)
Lemma shuffle_complete l l' : l ≡ₚ l' → ∃ seed, shuffle seed l = l'.
Proof.
  revert l'; induction l as [|x l IH]; intros l' Hp.
  { apply Permutation_nil_l in Hp as <-. by exists []. }
  assert (x ∈ l') as Hx by (rewrite <- Hp; left).
  apply list_elem_of_split in Hx as (l1 & l2 & ->).
  apply Permutation_cons_app_inv in Hp.
  destruct (IH _ Hp) as [seed Hseed].
  exists (length l1 :: seed). rewrite shuffle_cons. simpl. rewrite Hseed.
  unfold insertAt.
  by rewrite take_app_length, drop_app_length.
Qed.

Lemma shuffle_head_elem seed l x : shuffle seed l !! 0 = Some x → x ∈ l.
Proof.
  intros H. apply (elem_of_shuffle seed). by eapply list_elem_of_lookup_2.
Qed.

End Shuffle.

(** ** QuizEngine: building the quiz *)

Section BuildQuiz.

Lemma slice_0 {A} n (l : list A) : slice 0 n l = take n l.
Proof. unfold slice. by rewrite Nat.sub_0_r. Qed.

Lemma elem_of_List_filter {A} (f : A → bool) l x :
  x ∈ List.filter f l ↔ x ∈ l ∧ f x = true.
Proof. rewrite !list_elem_of_In. apply filter_In. Qed.

Lemma NoDup_fmap_List_filter {A B} (g : A → B) (f : A → bool) l :
  NoDup (g <$> l) → NoDup (g <$> List.filter f l).
Proof.
  induction l as [|x l IH]; simpl; [done|].
  intros [Hx Hl]%NoDup_cons. destruct (f x); simpl; [|by apply IH].
  apply NoDup_cons. split; [|by apply IH].
  intros (y & Hy & [Hin _]%elem_of_List_filter)%list_elem_of_fmap.
  apply Hx. apply list_elem_of_fmap. eauto.
Qed.

Lemma NoDup_fmap_take {A B} (g : A → B) n (l : list A) :
  NoDup (g <$> l) → NoDup (g <$> take n l).
Proof.
  intros H. rewrite <- (take_drop n l), fmap_app in H.
  by apply NoDup_app in H as [? _].
Qed.

(** C7. When [players[0]] exists, its board holds items with
    pairwise-different ids and at least three of them differ from the
    selected item, [handleSelectCard] enters QUIZ with a quiz whose
    options are four items with pairwise-different ids: the selected
    item and three items of the board other than it, in some order.
    [correctOptionId] is the id of the selected item, it is among the
    ids of the options, and no answer is recorded yet. *)
Theorem handleSelectCard_builds_quiz (r : Rand) (seed1 seed2 : list nat)
    (h : HanjaData) (snap s : State) (p0 : Player) :
  players snap !! 0 = Some p0 →
  NoDup (hanja_id <$> (hanja <$> board p0)) →
  3 ≤ length (List.filter (fun x => negb (String.eqb (hanja_id x) (hanja_id h)))
                          (hanja <$> board p0)) →
  ∃ s' q d1 d2 d3,
    handleSelectCard r seed1 seed2 h snap s = Some s'
    ∧ phase s' = QUIZ
    ∧ quizState s' = Some q
    ∧ targetHanja q = Some h
    ∧ length (options q) = 4
    ∧ NoDup (hanja_id <$> options q)
    ∧ NoDup (options q)
    ∧ options q ≡ₚ [h; d1; d2; d3]
    ∧ Forall (fun d => d ∈ hanja <$> board p0 ∧ hanja_id d ≠ hanja_id h) [d1; d2; d3]
    ∧ correctOptionId q = hanja_id h
    ∧ hanja_id h ∈ hanja_id <$> options q
    ∧ answers q = ∅
    ∧ resultsShown q = false.
Proof.
  intros Hp0 Hnd Hlen.
  set (cands := List.filter (fun x => negb (String.eqb (hanja_id x) (hanja_id h)))
                            (hanja <$> board p0)) in *.
  remember (slice 0 3 (shuffle seed1 cands)) as ds eqn:Eds.
  assert (length ds = 3) as Hds.
  { rewrite Eds, slice_0, length_take, shuffle_length. lia. }
  assert (∀ d, d ∈ ds → d ∈ hanja <$> board p0 ∧ hanja_id d ≠ hanja_id h) as Hin.
  { intros d Hd. rewrite Eds, slice_0 in Hd.
    apply (subseteq_take 3), elem_of_shuffle, elem_of_List_filter in Hd as [Hd Hne].
    split; [done|]. apply negb_true_iff, String.eqb_neq in Hne. done. }
  assert (NoDup (hanja_id <$> ds)) as Hndd.
  { rewrite Eds, slice_0. apply NoDup_fmap_take.
    rewrite shuffle_Permutation. by apply NoDup_fmap_List_filter. }
  assert (NoDup (hanja_id <$> (h :: ds))) as Hndo.
  { rewrite fmap_cons. apply NoDup_cons. split; [|done].
    intros (d & Hid & Hd)%list_elem_of_fmap. destruct (Hin d Hd) as [_ Hne].
    by apply Hne. }
  destruct ds as [|d1 [|d2 [|d3 [|? ?]]]]; try discriminate Hds.
  exists (addLog "퀴즈 대결 시작!"
            (setPhase QUIZ
               (setQuizState
                  (Some (mkQuiz (Some h)
                                (if rand_gt r 1 2 then HANJA_TO_HUNEUM
                                 else HUNEUM_TO_HANJA)
                                (shuffle seed2 [h; d1; d2; d3]) (hanja_id h) ∅ false))
                  s))),
         (mkQuiz (Some h)
                 (if rand_gt r 1 2 then HANJA_TO_HUNEUM else HUNEUM_TO_HANJA)
                 (shuffle seed2 [h; d1; d2; d3]) (hanja_id h) ∅ false),
         d1, d2, d3.
  split.
  { unfold handleSelectCard. rewrite Hp0. cbn [mbind option_bind].
    fold cands. by rewrite <- Eds. }
  cbn [phase quizState targetHanja options correctOptionId answers resultsShown
       addLog setPhase setQuizState setGameLog].
  repeat split; try done.
  - by rewrite shuffle_length.
  - by rewrite shuffle_Permutation.
  - eapply NoDup_fmap_1. by rewrite shuffle_Permutation.
  - apply shuffle_Permutation.
  - apply Forall_forall. intros d Hd. by apply Hin.
  - rewrite shuffle_Permutation. simpl. left.
Qed.

End BuildQuiz.

(** ** Ids of fetched items *)

Section HanjaIds.



Lemma TIMEOUT_MARKER_truthy : truthy (Some TIMEOUT_MARKER) = true.
Proof. reflexivity. Qed.

Lemma truthy_Some s : truthy (Some s) = true ↔ s ≠ "".
Proof.
  simpl. rewrite negb_true_iff. apply String.eqb_neq.
Qed.




End HanjaIds.

(** ** Round evaluation *)

Section EvaluateRound.

Lemma flipBoard_length cid b : length (flipBoard cid b) = length b.
Proof. apply length_fmap. Qed.

Lemma flipBoard_lookup cid b k c :
  b !! k = Some c →
  flipBoard cid b !! k
  = Some (if bool_decide (hanja_id (hanja c) = cid) then flipCell c else c).
Proof.
  intros H. unfold flipBoard. rewrite list_lookup_fmap, H. simpl.
  destruct (String.eqb_spec (hanja_id (hanja c)) cid).
  - by rewrite bool_decide_eq_true_2.
  - by rewrite bool_decide_eq_false_2.
Qed.




End EvaluateRound.

Section NextPhase.

Lemma find_first {A} (f : A → bool) (l : list A) (x : A) :
  List.find f l = Some x →
  ∃ i, l !! i = Some x ∧ f x = true
       ∧ ∀ j y, j < i → l !! j = Some y → f y = false.
Proof.
  induction l as [|a l IH]; simpl; [done|].
  destruct (f a) eqn:Ha.
  - intros [= ->]. exists 0. repeat split; [done|]. lia.
  - intros (i & Hi & Hx & Hlt)%IH. exists (S i). repeat split; [done..|].
    intros [|j] y Hj Hy; simpl in Hy; [congruence|].
    apply (Hlt j); [lia|done].
Qed.

Lemma find_none_all {A} (f : A → bool) (l : list A) :
  List.find f l = None ↔ ∀ x, x ∈ l → f x = false.
Proof.
  split.
  - intros H x Hx%list_elem_of_In. by eapply find_none.
  - induction l as [|a l IH]; simpl; [done|]. intros H.
    rewrite (H a) by left. apply IH. intros; apply H; by right.
Qed.

Lemma nextTurn_Num t len :
  0 < len → nextTurn (Num t) len = Num ((t + 1) mod len).
Proof. intros H. simpl. destruct (Nat.eqb_spec len 0); [lia|done]. Qed.

(** C2. When the evaluation of a round returns the players [ps'], then:
    if some player of [ps'] has a score of at least [winLines], the
    phase becomes GAME_OVER and the winner announced is the first such
    player of [ps'] in array order; otherwise the phase becomes
    TURN_START, the quiz is dropped, and with [n > 0] players the turn
    index [t] becomes [(t + 1) mod n], the next index in cyclic order. *)
Theorem evaluateRound_next_phase (snap s : State) (q : QuizState)
    (ps' : list Player) :
  quizState snap = Some q →
  nextPlayers (players snap) q = Some ps' →
  ∃ s',
    evaluateRound snap s = Some s'
    ∧ players s' = ps'
    ∧ ((∃ p, p ∈ ps' ∧ winLines (settings snap) ≤ score p) →
       phase s' = GAME_OVER
       ∧ ∃ i w, ps' !! i = Some w
                ∧ winLines (settings snap) ≤ score w
                ∧ (∀ j p, j < i → ps' !! j = Some p →
                          score p < winLines (settings snap))
                ∧ findWinner (settings snap) ps' = Some w
                ∧ gameLog s' !! 0 = Some (name w +:+ " 승리!"))
    ∧ ((∀ p, p ∈ ps' → score p < winLines (settings snap)) →
       phase s' = TURN_START
       ∧ quizState s' = None
       ∧ turnIndex s' = nextTurn (turnIndex s) (length (players snap))
       ∧ ∀ t, turnIndex s = Num t → 0 < length (players snap) →
           turnIndex s' = Num ((t + 1) mod length (players snap))
           ∧ (t + 1 < length (players snap) → turnIndex s' = Num (t + 1))
           ∧ (t + 1 = length (players snap) → turnIndex s' = Num 0)).
Proof.
  intros Hq Hnp. unfold evaluateRound. rewrite Hq. cbn [mbind option_bind].
  rewrite Hnp. cbn [mbind option_bind].
  destruct (findWinner (settings snap) ps') as [w|] eqn:Hw.
  - eexists. split; [done|]. split; [done|]. split.
    + intros _. split; [done|].
      apply find_first in Hw as (i & Hi & Hge & Hlt).
      exists i, w. split; [done|]. apply Nat.leb_le in Hge. split; [done|].
      split; [|done].
      intros j p Hj Hp. specialize (Hlt j p Hj Hp).
      apply Nat.leb_gt in Hlt. done.
    + intros Hall. apply find_some in Hw as [Hin%list_elem_of_In Hge].
      apply Nat.leb_le in Hge. specialize (Hall w Hin). lia.
  - eexists. split; [done|]. split; [done|]. split.
    + intros (p & Hp & Hge). unfold findWinner in Hw.
      rewrite find_none_all in Hw. specialize (Hw p Hp).
      apply Nat.leb_gt in Hw. lia.
    + intros _. split; [done|]. split; [done|]. split; [done|].
      intros t Ht Hlen. cbn [turnIndex setQuizState setTurnIndex setPhase setPlayers].
      rewrite Ht, nextTurn_Num by done. split; [done|]. split.
      * intros Hlt. by rewrite Nat.mod_small.
      * intros <-. by rewrite Nat.Div0.mod_same.
Qed.

End NextPhase.

(** ** Recording answers *)

Section Answers.



(** What the marker loop leaves in [answers]. *)
Lemma fill_lookup (missing : list Player) (m : gmap string string) (k : string) :
  foldl (fun newAnswers p => <[player_id p := TIMEOUT_MARKER]> newAnswers) m missing
    !! k
  = if bool_decide (k ∈ player_id <$> missing) then Some TIMEOUT_MARKER else m !! k.
Proof.
  revert m; induction missing as [|p missing IH]; intros m.
  { case_bool_decide as H; [|done]. by apply elem_of_nil in H. }
  cbn [foldl]. rewrite IH, fmap_cons.
  destruct (decide (k = player_id p)) as [->|Hne].
  - rewrite lookup_insert_eq.
    case_bool_decide as H1; case_bool_decide as H2; try done.
    all: exfalso; apply H2; left.
  - rewrite lookup_insert_ne by done.
    case_bool_decide as H1; case_bool_decide as H2; try done.
    + exfalso. apply H2. by right.
    + exfalso. apply elem_of_cons in H2 as [?|?]; done.
Qed.

Lemma elem_of_missingPlayers ps q p :
  p ∈ missingPlayers ps q ↔ p ∈ ps ∧ truthy (answers q !! player_id p) = false.
Proof.
  unfold missingPlayers. rewrite elem_of_List_filter, negb_true_iff. done.
Qed.

Lemma timeoutFill_lookup ps q k :
  ∃ q', timeoutFill_update (missingPlayers ps q) (Some q) = Some q'
        ∧ targetHanja q' = targetHanja q ∧ type q' = type q
        ∧ options q' = options q ∧ correctOptionId q' = correctOptionId q
        ∧ resultsShown q' = resultsShown q
        ∧ answers q' !! k
          = if bool_decide (k ∈ player_id <$> missingPlayers ps q)
            then Some TIMEOUT_MARKER else answers q !! k.
Proof. eexists. split; [done|]. repeat split. apply fill_lookup. Qed.







End Answers.

(** ** TimerEngine: the shared countdown *)

Section Countdown.

Lemma handleSelectCard_Some r seed1 seed2 h snap s s' :
  handleSelectCard r seed1 seed2 h snap s = Some s' →
  phase s' = QUIZ ∧ timeLeft s' = timeLeft s ∧ players s' = players s
  ∧ turnIndex s' = turnIndex s ∧ settings s' = settings s
  ∧ ∃ q, quizState s' = Some q ∧ targetHanja q = Some h
         ∧ correctOptionId q = hanja_id h ∧ answers q = ∅
         ∧ resultsShown q = false.
Proof.
  unfold handleSelectCard. destruct (players snap !! 0) as [p0|]; [|done].
  cbn [mbind option_bind]. intros [= <-]. repeat split. by eexists.
Qed.

Lemma timerInitEffect_timeLeft snap s :
  timeLeft (timerInitEffect snap s)
  = match phase snap with
    | PEEK => TURN_TIMEOUT
    | QUIZ => QUIZ_TIMEOUT
    | _ => timeLeft s
    end.
Proof. unfold timerInitEffect. by destruct (phase snap). Qed.

(** C6. The effect of a render in PEEK sets the countdown to 30;
    [finishPeek] moves to SELECT and leaves the countdown as it is, and
    so does the effect of the render that follows; the effect of a
    render in QUIZ sets the countdown to 10 whatever was left. *)
Theorem countdown_continuity :
  (∀ s, phase (turnStartTimeout s) = PEEK
        ∧ timeLeft (timerInitEffect (turnStartTimeout s) (turnStartTimeout s))
          = 30%Z)
  ∧ (∀ snap s, phase snap = PEEK → timeLeft (timerInitEffect snap s) = TURN_TIMEOUT)
  ∧ (∀ s, phase (finishPeek s) = SELECT
          ∧ timeLeft (finishPeek s) = timeLeft s
          ∧ timeLeft (timerInitEffect (finishPeek s) (finishPeek s)) = timeLeft s)
  ∧ (∀ r seed1 seed2 h snap s s',
       handleSelectCard r seed1 seed2 h snap s = Some s' →
       phase s' = QUIZ ∧ timeLeft (timerInitEffect s' s') = 10%Z)
  ∧ (∀ snap s, phase snap = QUIZ → timeLeft (timerInitEffect snap s) = QUIZ_TIMEOUT).
Proof.
  split; [done|].
  split. { intros snap s H. by rewrite timerInitEffect_timeLeft, H. }
  split; [done|].
  split.
  - intros r seed1 seed2 h snap s s' (Hp & _)%handleSelectCard_Some.
    split; [done|]. by rewrite timerInitEffect_timeLeft, Hp.
  - intros snap s H. by rewrite timerInitEffect_timeLeft, H.
Qed.

End Countdown.

(** ** Guards of the entry points *)

Section Guards.

Lemma setQuizState_same s : setQuizState (quizState s) s = s.
Proof. by destruct s. Qed.




End Guards.

(** ** OpponentPolicy: the answers of the AI players *)

Section OpponentPolicy.

(** C10, the failing case.  On the incorrect branch the AI whose turn
    it is takes the first of all shuffled options; with the options in
    the order [1; 2; 3; 4] and the draw 0 that is the correct one. *)
Lemma aiAnswerId_incorrect_branch_can_be_correct :
  rand_gt (mkRand 0 0) 1 5 = false
  ∧ aiAnswerId (mkRand 0 0) [] quizFresh = Some (correctOptionId quizFresh).
Proof. split; reflexivity. Qed.

(** The same for any option and any quiz: on the incorrect branch every
    option, the correct one included, is the answer for some shuffle. *)
Lemma aiAnswerId_incorrect_branch_unfiltered (r : Rand) (q : QuizState)
    (o : HanjaData) :
  rand_gt r 1 5 = false → o ∈ options q →
  ∃ seed, aiAnswerId r seed q = Some (hanja_id o).
Proof.
  intros Hr (l1 & l2 & Ho)%list_elem_of_split.
  destruct (shuffle_complete (options q) (o :: l1 ++ l2)) as [seed Hseed].
  { rewrite Ho. by rewrite <- Permutation_middle. }
  exists seed. unfold aiAnswerId. by rewrite Hr, Hseed.
Qed.

(** The other AI players' effect does filter: on its incorrect branch the
    answer is not the correct option as soon as one option with a
    non-empty id differs from it. *)
Lemma bystanderAnswerId_incorrect_branch (r : Rand) (seed : list nat)
    (q : QuizState) :
  rand_gt r 3 10 = false →
  Forall (fun o => hanja_id o ≠ "") (options q) →
  (∃ o, o ∈ options q ∧ hanja_id o ≠ correctOptionId q) →
  ∃ o, bystanderAnswerId r seed q = Some (hanja_id o)
       ∧ o ∈ options q ∧ hanja_id o ≠ correctOptionId q.
Proof.
  intros Hr Hne (o & Ho & Hoc). unfold bystanderAnswerId. rewrite Hr.
  set (wrong := List.filter _ (options q)).
  assert (o ∈ wrong) as Hw.
  { apply elem_of_List_filter. split; [done|].
    by apply negb_true_iff, String.eqb_neq. }
  destruct (shuffle seed wrong !! 0) as [o'|] eqn:Hhd.
  - apply shuffle_head_elem in Hhd.
    apply elem_of_List_filter in Hhd as [Hin Hneq].
    apply negb_true_iff, String.eqb_neq in Hneq.
    rewrite Forall_forall in Hne.
    rewrite (proj2 (truthy_Some _) (Hne _ Hin)). by exists o'.
  - apply lookup_ge_None in Hhd. rewrite shuffle_length in Hhd.
    destruct wrong; [by apply elem_of_nil in Hw|simpl in Hhd; lia].
Qed.

End OpponentPolicy.

(** ** Runs of the component and what they preserve *)

Section Runs.

Lemma Reachable_initial : Reachable initialState.
Proof. by exists []. Qed.

(** What holds initially and is kept by every callback, whatever render
    it belongs to, holds in every state of every run. *)
Lemma run_invariant (P : State → Prop) :
  (∀ e snap s s', P snap → P s → fire e snap s = Some s' → P s') →
  ∀ trace past s s',
    Forall P past → P s → run trace past s = Some s' → P s'.
Proof.
  intros Hfire trace. induction trace as [|[e age] trace IH];
    intros past s s' Hpast Hs Hrun; simpl in Hrun.
  { by injection Hrun as <-. }
  destruct ((s :: past) !! age) as [snap|] eqn:Hsnap; [|done].
  cbn [mbind option_bind] in Hrun.
  destruct (fire e snap s) as [s1|] eqn:Hs1; [|done].
  cbn [mbind option_bind] in Hrun.
  assert (Forall P (s :: past)) as Hall by (by apply Forall_cons).
  apply (IH (s :: past) s1 s'); [done| |done].
  apply (Hfire e snap s s1); [|done..].
  rewrite Forall_forall in Hall. apply Hall. by eapply list_elem_of_lookup_2.
Qed.

Lemma Reachable_invariant (P : State → Prop) :
  P initialState →
  (∀ e snap s s', P snap → P s → fire e snap s = Some s' → P s') →
  ∀ s, Reachable s → P s.
Proof.
  intros H0 Hfire s [trace Hrun].
  by apply (run_invariant P Hfire trace [] initialState s).
Qed.


Lemma pickTarget_elem seed p t : pickTarget seed p = Some t → t ∈ board p.
Proof.
  unfold pickTarget. case_match.
  - intros [Hin _]%shuffle_head_elem%elem_of_List_filter. done.
  - apply list_elem_of_lookup_2.
Qed.















End Runs.

(** ** Countdown expiry during the quiz *)

Section QuizTimeout.




Lemma timerExpiry_quiz_answers r seed seed1 seed2 s q :
  phase s = QUIZ → timeLeft s = 0%Z → quizState s = Some q →
  resultsShown q = false →
  ∃ q', timerExpiryEffect r seed seed1 seed2 s s = Some (setQuizState (Some q') s)
        ∧ targetHanja q' = targetHanja q ∧ options q' = options q
        ∧ correctOptionId q' = correctOptionId q
        ∧ resultsShown q' = resultsShown q
        ∧ ∀ k, answers q' !! k
               = if bool_decide (k ∈ player_id <$> missingPlayers (players s) q)
                 then Some TIMEOUT_MARKER else answers q !! k.
Proof.
  intros Hph Ht Hq Hrs. unfold timerExpiryEffect, timerRunning.
  rewrite Ht, andb_false_r, bool_decide_eq_true_2, Hph, Hq, Hrs by done.
  destruct (missingPlayers (players s) q) as [|p missing] eqn:Hmiss.
  - exists q. cbn [length Nat.ltb Nat.leb]. rewrite <- Hq, setQuizState_same.
    do 5 (split; [done|]). intros k. case_bool_decide as H; [|done].
    by apply elem_of_nil in H.
  - cbn [length Nat.ltb Nat.leb]. eexists. split; [done|].
    do 4 (split; [done|]). intros k. cbn [answers]. apply fill_lookup.
Qed.


End QuizTimeout.

(** ** Flipped cells *)

Section Flips.

(** Only the round evaluation and [startGame] write [players]. *)
Lemma fire_players e snap s s' :
  fire e snap s = Some s' → isNewGame e = false →
  players s' = players s
  ∨ e = EvaluateRoundTimeout
    ∧ ∃ q, nextPlayers (players snap) q = Some (players s').
Proof.
  destruct e; cbn [fire isNewGame]; intros Hfire Hnew; try done.
  - case_match; [|done]. injection Hfire as <-. by left.
  - case_match; [|done]. injection Hfire as <-. by left.
  - case_match; [|done]. injection Hfire as <-. by left.
  - case_match; [|done]. injection Hfire as <-. by left.
  - injection Hfire as <-. left. unfold turnStartEffect. by repeat case_match.
  - case_match; [|done]. injection Hfire as <-. by left.
  - injection Hfire as <-. left. unfold timerInitEffect. by repeat case_match.
  - case_match; [|done]. injection Hfire as <-. by left.
  - left. unfold timerExpiryEffect in Hfire.
    destruct (timerRunning snap); [by injection Hfire as <-|].
    case_bool_decide; [|by injection Hfire as <-].
    destruct (phase snap); try (by injection Hfire as <-).
    + case_bool_decide; by injection Hfire as <-.
    + destruct (activePlayer snap) as [ap|]; [|by injection Hfire as <-].
      case_bool_decide; [|by injection Hfire as <-].
      destruct (pickTarget seed ap) as [t|]; [|done].
      cbn [mbind option_bind] in Hfire.
      by apply handleSelectCard_Some in Hfire as (_ & _ & -> & _).
    + destruct (quizState snap) as [q|]; [|by injection Hfire as <-].
      repeat case_match; by injection Hfire as <-.
  - destruct (activePlayer snap); [|done]. cbn [mbind option_bind] in Hfire.
    case_match; [|done]. injection Hfire as <-. by left.
  - destruct (activePlayer snap); [|done]. cbn [mbind option_bind] in Hfire.
    case_match; [|done]. injection Hfire as <-. by left.
  - left. destruct (activePlayer snap) as [ap|]; [|done].
    cbn [mbind option_bind] in Hfire. case_match; [|done].
    unfold aiSelect in Hfire. case_bool_decide; [|by injection Hfire as <-].
    destruct (pickTarget seed ap) as [t|]; [|done].
    cbn [mbind option_bind] in Hfire.
    by apply handleSelectCard_Some in Hfire as (_ & _ & -> & _).
  - left. destruct (activePlayer snap) as [ap|]; [|done].
    destruct (quizState snap) as [q|]; [|done].
    cbn [mbind option_bind] in Hfire. case_match; [|done].
    unfold aiAnswer in Hfire. case_match; [|by injection Hfire as <-].
    destruct (aiAnswerId r seed q); [|done]. by injection Hfire as <-.
  - left. destruct (players snap !! i) as [p|]; [|done].
    destruct (quizState snap) as [q|]; [|done].
    cbn [mbind option_bind] in Hfire. case_match; [|done].
    unfold bystanderAnswer in Hfire. case_match; [|by injection Hfire as <-].
    destruct (bystanderAnswerId r seed q); [|done]. by injection Hfire as <-.
  - left. destruct (players snap !! 0) as [me|]; [|done].
    cbn [mbind option_bind] in Hfire.
    destruct (board me !! k) as [cell|]; [|done].
    cbn [mbind option_bind] in Hfire. case_match; [|done].
    unfold cardOnClick in Hfire.
    assert (players (if bool_decide (phase snap = PEEK)
                     then handlePeekClick cell snap s else s) = players s) as Hp.
    { destruct (bool_decide (phase snap = PEEK)); [|done].
      unfold handlePeekClick. by repeat case_match. }
    destruct (bool_decide (phase snap = SELECT) && isMyTurn snap).
    + apply handleSelectCard_Some in Hfire as (_ & _ & -> & _). done.
    + by injection Hfire as <-.
  - case_match; [|done]. injection Hfire as <-. by left.
  - left. destruct (players snap !! 0) as [me|]; [|done].
    destruct (quizState snap) as [q|]; [|done].
    cbn [mbind option_bind] in Hfire.
    destruct (options q !! k); [|done].
    cbn [mbind option_bind] in Hfire. case_match; [|done].
    injection Hfire as <-. unfold optionOnClick. by case_match.
  - injection Hfire as <-. left. unfold showResultsEffect. by repeat case_match.
  - destruct (quizState snap) as [q|] eqn:Hq; [|done].
    cbn [mbind option_bind] in Hfire. case_match; [|done].
    unfold evaluateRound in Hfire. rewrite Hq in Hfire.
    destruct (nextPlayers (players snap) q) as [ps'|] eqn:Hnp; [|done].
    cbn [mbind option_bind] in Hfire. right. split; [done|]. exists q.
    case_match; by injection Hfire as <-.
  - case_match; [|done]. injection Hfire as <-. by left.
Qed.

Lemma keepsFlips_refl ps : keepsFlips ps ps.
Proof. intros i p k c Hp Hc Hf. by exists p, c. Qed.

Lemma keepsFlips_trans ps1 ps2 ps3 :
  keepsFlips ps1 ps2 → keepsFlips ps2 ps3 → keepsFlips ps1 ps3.
Proof.
  intros H12 H23 i p k c Hp Hc Hf.
  destruct (H12 i p k c Hp Hc Hf) as (p2 & c2 & Hp2 & Hc2 & Hf2 & <- & <- & <-).
  by apply (H23 i p2 k c2).
Qed.

Lemma nextPlayers_keepsFlips ps q ps' :
  nextPlayers ps q = Some ps' → keepsFlips ps ps'.
Proof.
  unfold nextPlayers. cbv zeta. intros Hm%mapM_Some i p k c Hp Hc Hf.
  destruct (Forall2_lookup_l _ _ _ _ _ Hm Hp) as (p' & Hp' & Hstep).
  case_bool_decide; [|injection Hstep as <-; by exists p, c].
  destruct (checkBingo _); [|done]. injection Hstep as <-.
  eexists _, _. split; [done|]. cbn [board player_id].
  rewrite list_lookup_fmap, Hc. split; [done|].
  case_match; [|done]. by destruct c.
Qed.

(** What a callback writes keeps the flips of the boards it read. *)
Lemma fire_keepsFlips e snap s s' :
  fire e snap s = Some s' → isNewGame e = false →
  (e = EvaluateRoundTimeout → players snap = players s) →
  keepsFlips (players s) (players s').
Proof.
  intros Hfire Hnew Hcur.
  destruct (fire_players e snap s s' Hfire Hnew) as [->|[He [q Hq]]].
  - apply keepsFlips_refl.
  - rewrite <- (Hcur He). by eapply nextPlayers_keepsFlips.
Qed.

Lemma run_keepsFlips trace past s s' :
  run trace past s = Some s' →
  Forall (fun ea => isNewGame ea.1 = false) trace →
  evaluatesCurrentBoards trace past s →
  keepsFlips (players s) (players s').
Proof.
  revert past s; induction trace as [|[e age] trace IH];
    intros past s Hrun Hes Hcur; simpl in Hrun.
  { injection Hrun as <-. apply keepsFlips_refl. }
  apply Forall_cons in Hes as [He Hes]. simpl in He, Hcur.
  destruct ((s :: past) !! age) as [snap|]; [|done].
  cbn [mbind option_bind] in Hrun. destruct Hcur as [Hsnap Hcur].
  destruct (fire e snap s) as [s1|] eqn:Hfire; [|done].
  cbn [mbind option_bind] in Hrun.
  eapply keepsFlips_trans; [by eapply fire_keepsFlips|by eapply IH].
Qed.

Lemma newPlayers_unflipped st pool seeds p c :
  p ∈ newPlayers st pool seeds → c ∈ board p → isFlipped c = false.
Proof.
  unfold newPlayers. intros (i & -> & _)%list_elem_of_fmap. cbn [board].
  by intros (k & h & -> & _)%elem_of_lookup_imap.
Qed.

(** C8 (as amended). Flipping is monotonic in every operation other
    than the installation of new boards by [startGame]: peeks,
    selections, answers, timeout fills and phase changes (the reset to
    SETUP among them) leave the boards as they are, and the round
    evaluation writes boards in which every cell that was flipped in the
    boards it read is still at its place and still flipped.  Hence in a
    run without a new game in which every round evaluation reads the
    current boards, a cell once flipped stays flipped.  The boards
    [startGame] installs are new and all their cells are unflipped. *)
Theorem flips_persist_within_a_game :
  (∀ e snap s s',
     fire e snap s = Some s' → isNewGame e = false →
     players s' = players s
     ∨ e = EvaluateRoundTimeout ∧ keepsFlips (players snap) (players s'))
  ∧ (∀ trace past s s',
       run trace past s = Some s' →
       Forall (fun ea => isNewGame ea.1 = false) trace →
       evaluatesCurrentBoards trace past s →
       ∀ i p k c,
         players s !! i = Some p → board p !! k = Some c → isFlipped c = true →
         ∃ p' c', players s' !! i = Some p' ∧ board p' !! k = Some c'
                  ∧ isFlipped c' = true
                  ∧ player_id p' = player_id p ∧ cell_id c' = cell_id c
                  ∧ hanja c' = hanja c)
  ∧ (∀ api seeds r snap s p c,
       p ∈ players (startGame_resume api seeds r snap s) → c ∈ board p →
       isFlipped c = false).
Proof.
  split; [|split].
  - intros e snap s s' Hfire Hnew.
    destruct (fire_players e snap s s' Hfire Hnew) as [->|[He [q Hq]]];
      [by left|right].
    split; [done|]. by eapply nextPlayers_keepsFlips.
  - intros trace past s s' Hrun Hes Hcur.
    by apply (run_keepsFlips trace past s s').
  - intros api seeds r snap s p c. cbn [players startGame_resume addLog setGameLog
      setPhase setTurnIndex setPlayers]. apply newPlayers_unflipped.
Qed.

(** C8, the claim as worded fails: after a won game the reset and a new
    start put unflipped cells where flipped ones were.  Cell 0 of
    player-1, with the same cell id ["1-0"], is flipped at the end of
    the first game and unflipped after [playAgain]. *)
Lemma new_game_unflips_flipped_cell :
  ∃ s1 s2 p1 c1 p2 c2,
    run firstGame [] initialState = Some s1
    ∧ run playAgain [] s1 = Some s2
    ∧ phase s1 = GAME_OVER
    ∧ players s1 !! 0 = Some p1 ∧ board p1 !! 0 = Some c1
    ∧ isFlipped c1 = true
    ∧ players s2 !! 0 = Some p2 ∧ board p2 !! 0 = Some c2
    ∧ isFlipped c2 = false
    ∧ player_id p2 = player_id p1 ∧ cell_id c2 = cell_id c1.
Proof.
  eexists _, _, _, _, _, _.
  split; [vm_compute; reflexivity|].
  split; [vm_compute; reflexivity|].
  split; [reflexivity|].
  split; [reflexivity|]. split; [reflexivity|]. split; [reflexivity|].
  split; [reflexivity|]. split; [reflexivity|]. split; [reflexivity|].
  split; reflexivity.
Qed.

End Flips.

(** * Worked examples *)

Section Examples.

(** The evaluator on concrete boards. *)
Example checkBingo_empty_board : checkBingo [] = None.
Proof. reflexivity. Qed.

Example checkBingo_row_almost : checkBingo (boardOfFlags rowAlmost) = Some 0.
Proof. reflexivity. Qed.

Example checkBingo_row_completed :
  checkBingo (flipBoard "5" (boardOfFlags rowAlmost)) = Some 1.
Proof. reflexivity. Qed.

Example checkBingo_row_and_diagonal_completed :
  checkBingo (boardOfFlags rowAndDiagonalAlmost) = Some 0
  ∧ checkBingo (flipBoard "5" (boardOfFlags rowAndDiagonalAlmost)) = Some 2.
Proof. split; reflexivity. Qed.

Example shuffle_empty_seed : shuffle [] [1; 2; 3] = [1; 2; 3].
Proof. reflexivity. Qed.

Example shuffle_some_seed : shuffle [2; 1] [1; 2; 3] = [3; 2; 1].
Proof. reflexivity. Qed.

Example gameStarted_phase : phase <$> gameStarted = Some TURN_START.
Proof. reflexivity. Qed.

(** A late answer and a timeout fill of an older render.  The countdown
    is at zero and the AI has not answered; its answer arrives before
    the countdown effect of that render runs.  The effect still counts
    the AI as missing and writes the marker over the answer. *)
Example late_answer_overwritten_by_older_timeout_fill :
  ∃ s1 s2 q1 q2,
    run (quizRunOut ++ [(BystanderAnswer 1 (mkRand 0 0) [], 0)]) [] initialState
    = Some s1
    ∧ run (quizRunOut ++ [(BystanderAnswer 1 (mkRand 0 0) [], 0);
                          (TimerExpiry (mkRand 0 0) [] [] [], 1)]) [] initialState
      = Some s2
    ∧ quizState s1 = Some q1 ∧ quizState s2 = Some q2
    ∧ answers q1 !! "player-2" = Some "2"
    ∧ answers q2 !! "player-2" = Some TIMEOUT_MARKER.
Proof.
  eexists _, _, _, _.
  split; [vm_compute; reflexivity|]. split; [vm_compute; reflexivity|].
  split; [reflexivity|]. split; [reflexivity|]. split; reflexivity.
Qed.

(** A round evaluation of an older render.  At the end of [staleRun]
    the first evaluation has flipped cell 0 of player-1; the second one,
    scheduled before the first ran, writes the boards of its own render
    with its own flip, and cell 0 is unflipped again. *)
Example older_evaluation_drops_a_flip :
  ∃ s1 s2 p1 c1 p2 c2,
    run staleRun [] initialState = Some s1
    ∧ run (staleRun ++ staleEvaluation) [] initialState = Some s2
    ∧ Forall (fun ea => isNewGame ea.1 = false) staleEvaluation
    ∧ players s1 !! 0 = Some p1 ∧ board p1 !! 0 = Some c1
    ∧ isFlipped c1 = true
    ∧ players s2 !! 0 = Some p2 ∧ board p2 !! 0 = Some c2
    ∧ isFlipped c2 = false.
Proof.
  eexists _, _, _, _, _, _.
  split; [vm_compute; reflexivity|]. split; [vm_compute; reflexivity|].
  split; [repeat constructor|].
  split; [reflexivity|]. split; [reflexivity|]. split; [reflexivity|].
  split; [reflexivity|]. split; reflexivity.
Qed.


Lemma checkBingo_counts_completed_lines_witness :
  length (boardOfFlags rowAlmost) = 25
  ∧ checkBingo (boardOfFlags rowAlmost)
    = Some (spec_countCompletedLines (boardOfFlags rowAlmost)).
Proof.
  split; [reflexivity|].
  exact (proj1 (checkBingo_counts_completed_lines (boardOfFlags rowAlmost) eq_refl)).
Defined.


Lemma evaluateRound_next_phase_witness :
  ∃ s q ps',
    run (take 55 firstGame) [] initialState = Some s
    ∧ quizState s = Some q
    ∧ nextPlayers (players s) q = Some ps'
    ∧ ∃ s', evaluateRound s s = Some s' ∧ players s' = ps' ∧ phase s' = GAME_OVER.
Proof.
  eexists _, _, _.
  split; [vm_compute; reflexivity|].
  split; [reflexivity|].
  match goal with
  | |- nextPlayers (players ?s) ?q = Some ?ps' ∧ _ =>
      assert (nextPlayers (players s) q = Some ps') as Hnp
        by (vm_compute; reflexivity);
      split; [exact Hnp|];
      destruct (evaluateRound_next_phase s s q ps' (eq_refl (Some q)) Hnp)
        as (s' & Hs' & Hps & Hwin & _)
  end.
  exists s'. split; [exact Hs'|]. split; [exact Hps|].
  apply Hwin. eexists. split; [apply list_elem_of_here|].
  vm_compute. lia.
Defined.



Lemma countdown_continuity_witness :
  ∃ s s',
    gameStarted = Some s
    ∧ handleSelectCard (mkRand 0 0) [] [] (mkHanja "1" "天" "하늘" "천" "하늘 천") s s
      = Some s'
    ∧ phase s' = QUIZ ∧ timeLeft (timerInitEffect s' s') = 10%Z.
Proof.
  eexists _, _. split; [vm_compute; reflexivity|].
  match goal with
  | |- handleSelectCard ?r ?a ?b ?h ?s ?s = Some ?s' ∧ _ =>
      assert (handleSelectCard r a b h s s = Some s') as Hsel
        by (vm_compute; reflexivity);
      split; [exact Hsel|];
      exact (proj1 (proj2 (proj2 (proj2 countdown_continuity))) r a b h s s s' Hsel)
  end.
Defined.

Lemma handleSelectCard_builds_quiz_witness :
  ∃ s p0,
    gameStarted = Some s
    ∧ players s !! 0 = Some p0
    ∧ NoDup (hanja_id <$> (hanja <$> board p0))
    ∧ 3 ≤ length (List.filter
                    (fun x => negb (String.eqb (hanja_id x) "1"))
                    (hanja <$> board p0))
    ∧ ∃ s' q,
        handleSelectCard (mkRand 0 0) [] []
          (mkHanja "1" "天" "하늘" "천" "하늘 천") s s = Some s'
        ∧ quizState s' = Some q ∧ length (options q) = 4.
Proof.
  eexists _, _. split; [vm_compute; reflexivity|].
  split; [reflexivity|].
  assert (NoDup (hanja_id <$> FALLBACK_HANJA)) as Hnd.
  { apply (bool_decide_unpack _). vm_compute. exact I. }
  assert (NoDup (hanja_id <$> slice 0 25 FALLBACK_HANJA)) as Hnd25.
  { unfold slice. rewrite Nat.sub_0_r. by apply NoDup_fmap_take. }
  split; [exact Hnd25|].
  split; [vm_compute; lia|].
  match goal with
  | |- ∃ s' q, handleSelectCard ?r ?s1 ?s2 ?h ?s ?s = _ ∧ _ =>
      destruct (handleSelectCard_builds_quiz r s1 s2 h s s _ eq_refl Hnd25)
        as (s' & q & _ & _ & _ & Hs' & _ & Hq & _ & Hlen & _)
  end.
  { vm_compute; lia. }
  exists s', q. split; [exact Hs'|]. split; [exact Hq|]. exact Hlen.
Defined.

Lemma flips_persist_within_a_game_witness :
  ∃ s s' p c,
    run (take 13 firstGame) [] initialState = Some s
    ∧ run (aiRound 1 ++ humanRound 2) [] s = Some s'
    ∧ Forall (fun ea => isNewGame ea.1 = false) (aiRound 1 ++ humanRound 2)
    ∧ evaluatesCurrentBoards (aiRound 1 ++ humanRound 2) [] s
    ∧ players s !! 0 = Some p ∧ board p !! 0 = Some c ∧ isFlipped c = true
    ∧ ∃ p' c', players s' !! 0 = Some p' ∧ board p' !! 0 = Some c'
               ∧ isFlipped c' = true.
Proof.
  eexists _, _, _, _. split; [vm_compute; reflexivity|].
  match goal with
  | |- run ?es [] ?s = Some ?s' ∧ _ =>
      assert (run es [] s = Some s') as Hrun by (vm_compute; reflexivity);
      assert (Forall (fun ea => isNewGame ea.1 = false) es) as Hes
        by (repeat constructor);
      assert (evaluatesCurrentBoards es [] s) as Hcur
        by (vm_compute; repeat split; intros; (reflexivity || discriminate));
      split; [exact Hrun|]; split; [exact Hes|]; split; [exact Hcur|]
  end.
  split; [reflexivity|]. split; [reflexivity|]. split; [reflexivity|].
  match goal with
  | |- ∃ p' c', players ?s' !! _ = _ ∧ _ =>
      destruct (proj1 (proj2 flips_persist_within_a_game) _ _ _ s' Hrun Hes Hcur
                  0 _ 0 _ eq_refl eq_refl eq_refl)
        as (p' & c' & Hp' & Hc' & Hf & _)
  end.
  exists p', c'. split; [exact Hp'|]. split; [exact Hc'|]. exact Hf.
Defined.


End Examples.

(** * Edge cases, invariants of the runs, and what is rendered *)

(** ** [checkBingo] on boards of any length *)

Section BingoEdges.

Local Ltac short_board b H :=
  do 25 (destruct b as [|? b]; [reflexivity|]);
  simpl in H; lia.

Lemma checkBingo_short board : length board < 25 → checkBingo board = None.
Proof. intros H. short_board board H. Qed.

Lemma checkBingo_take25 board :
  25 ≤ length board → checkBingo board = checkBingo (take 25 board).
Proof.
  intros H.
  do 25 (destruct board as [|? board]; [simpl in H; lia|]).
  reflexivity.
Qed.

Lemma spec_count_take25 board :
  spec_countCompletedLines (take 25 board) = spec_countCompletedLines board.
Proof.
  unfold spec_countCompletedLines. f_equal.
  pose proof spec_lines_shape as Hs.
  induction Hs as [|line ls [_ Hin] _ IH]; [done|].
  simpl. rewrite IH.
  replace (lineCompleted (take 25 board) line) with (lineCompleted board line); [done|].
  unfold lineCompleted. clear IH. induction Hin as [|i line Hi _ IHl]; [done|].
  simpl. rewrite IHl. unfold flippedAt at 1 3.
  by rewrite lookup_take_lt by done.
Qed.

Lemma checkBingo_long board :
  25 ≤ length board → checkBingo board = Some (spec_countCompletedLines board).
Proof.
  intros H. rewrite checkBingo_take25 by done.
  rewrite checkBingo_spec by (rewrite length_take; lia).
  by rewrite spec_count_take25.
Qed.

Lemma length_filter_le {A} (f : A → bool) (l : list A) :
  length (List.filter f l) ≤ length l.
Proof. induction l as [|x l IH]; simpl; [done|]. destruct (f x); simpl; lia. Qed.

Lemma length_filter_mono {A} (f g : A → bool) (l : list A) :
  (∀ x, x ∈ l → f x = true → g x = true) →
  length (List.filter f l) ≤ length (List.filter g l).
Proof.
  induction l as [|x l IH]; intros H; simpl; [done|].
  assert (length (List.filter f l) ≤ length (List.filter g l)) as Hl.
  { apply IH. intros y Hy. apply H. by right. }
  destruct (f x) eqn:Hf.
  - rewrite (H x) by (done || left). simpl. lia.
  - destruct (g x); simpl; lia.
Qed.

(** X1. [checkBingo] throws exactly on the boards of fewer than 25
    cells: the column loop reads all of [board[0]] ... [board[24]]. *)
Theorem checkBingo_throws_iff_short (board : list Cell) :
  checkBingo board = None ↔ length board < 25.
Proof.
  split.
  - intros Hnone. destruct (decide (length board < 25)) as [|Hge]; [done|].
    rewrite checkBingo_long in Hnone by lia. done.
  - apply checkBingo_short.
Qed.

(** X2. On a board of 25 cells or more [checkBingo] looks at the first
    25 only: it returns the number of completed lines among the twelve
    of the 5x5 grid they form, which is at most 12. *)
Theorem checkBingo_reads_first_25_cells (board : list Cell) :
  25 ≤ length board →
  ∃ n, checkBingo board = Some n
       ∧ checkBingo (take 25 board) = Some n
       ∧ n = spec_countCompletedLines board
       ∧ n ≤ 12.
Proof.
  intros H. exists (spec_countCompletedLines board).
  split; [by apply checkBingo_long|]. split.
  - rewrite <- checkBingo_take25 by done. by apply checkBingo_long.
  - split; [done|]. unfold spec_countCompletedLines.
    change 12 with (length spec_lines). apply length_filter_le.
Qed.

Lemma spec_count_mono (board board' : list Cell) :
  (∀ i, flippedAt board i = true → flippedAt board' i = true) →
  spec_countCompletedLines board ≤ spec_countCompletedLines board'.
Proof.
  intros Hflip. unfold spec_countCompletedLines. apply length_filter_mono.
  intros line _. unfold lineCompleted. rewrite !forallb_forall.
  intros Hall i Hi. by apply Hflip, Hall.
Qed.

(** X3. Flipping more cells never lowers the line count: when every cell
    flipped on [board] is flipped at the same place on [board'], the
    count of [board'] is at least that of [board]. *)
Theorem checkBingo_monotone (board board' : list Cell) (n n' : nat) :
  25 ≤ length board → length board' = length board →
  (∀ i c c', board !! i = Some c → board' !! i = Some c' →
             isFlipped c = true → isFlipped c' = true) →
  checkBingo board = Some n → checkBingo board' = Some n' →
  n ≤ n'.
Proof.
  intros Hlen Hlen' Hflip.
  rewrite !checkBingo_long by lia. intros [= <-] [= <-].
  apply spec_count_mono. intros i. unfold flippedAt.
  destruct (board !! i) as [c|] eqn:Hc; [|done].
  destruct (lookup_lt_is_Some_2 board' i) as [c' Hc'].
  { rewrite Hlen'. by eapply lookup_lt_Some. }
  rewrite Hc'. by eapply Hflip.
Qed.

End BingoEdges.

(** ** Decimal numerals and ids *)

Section Numerals.

Lemma append_nil_l (t : string) : "" +:+ t = t.
Proof. reflexivity. Qed.

Lemma append_String c (s t : string) : String c s +:+ t = String c (s +:+ t).
Proof. reflexivity. Qed.

Lemma keepDigits_length s : String.length (keepDigits s) ≤ String.length s.
Proof.
  induction s as [|c s IH]; simpl; [done|]. destruct (isDigit c); simpl; lia.
Qed.

Lemma keepDigits_app s1 s2 :
  keepDigits (s1 +:+ s2) = keepDigits s1 +:+ keepDigits s2.
Proof.
  induction s1 as [|c s1 IH]; simpl; [done|].
  destruct (isDigit c); simpl; by rewrite IH.
Qed.

(** A string of digits holds no dash. *)
Lemma digits_no_dash a s1 s2 : keepDigits a = a → a ≠ s1 +:+ "-" +:+ s2.
Proof.
  revert s1. induction a as [|c a IH]; intros s1 Hk Heq.
  { by destruct s1. }
  simpl in Hk. destruct (isDigit c) eqn:Hc.
  - injection Hk as Hk.
    destruct s1 as [|c1 s1]; repeat (rewrite append_nil_l in Heq || rewrite append_String in Heq).
    + injection Heq as -> _. done.
    + injection Heq as _ Heq. by apply (IH s1).
  - pose proof (keepDigits_length a) as Hlen. rewrite Hk in Hlen.
    simpl in Hlen. lia.
Qed.

(** Two strings that end in a dash and a numeral are equal only if the
    numerals and what is before the dash are. *)
Lemma split_at_last_dash s s' a b :
  keepDigits a = a → keepDigits b = b →
  s +:+ "-" +:+ a = s' +:+ "-" +:+ b → s = s' ∧ a = b.
Proof.
  intros Ha Hb. revert s'. induction s as [|c s IH]; intros [|c' s'] Heq;
    repeat (rewrite append_nil_l in Heq || rewrite append_String in Heq).
  - by injection Heq as ->.
  - injection Heq as _ Heq. by destruct (digits_no_dash a s' b).
  - injection Heq as _ Heq. by destruct (digits_no_dash b s a).
  - injection Heq as -> Heq. destruct (IH s' Heq) as [-> ->]. done.
Qed.

Lemma pretty_N_go_digits x s :
  keepDigits s = s → keepDigits (pretty_N_go x s) = pretty_N_go x s.
Proof.
  revert s. induction (N.lt_wf_0 x) as [x _ IH]; intros s Hs.
  assert (x = 0 ∨ 0 < x)%N as [->|Hx] by lia.
  - by rewrite pretty_N_go_0.
  - rewrite pretty_N_go_step by done. apply IH.
    { by apply N.div_lt. }
    simpl. rewrite Hs.
    assert (isDigit (pretty_N_char (x `mod` 10)) = true) as ->; [|done].
    unfold pretty_N_char. by repeat case_match.
Qed.

Lemma pretty_nat_digits (n : nat) : keepDigits (pretty n) = pretty n.
Proof.
  unfold pretty, pretty_nat, pretty, pretty_N. case_decide; [done|].
  by apply pretty_N_go_digits.
Qed.

End Numerals.

(** ** The pool and the players of a new game *)

Section NewGame.

Lemma FALLBACK_HANJA_ids : NoDup (hanja_id <$> FALLBACK_HANJA).
Proof. apply (bool_decide_unpack _). vm_compute. reflexivity. Qed.

Lemma FALLBACK_HANJA_hunEum :
  Forall (fun h => hunEum h = hun h +:+ " " +:+ eum h) FALLBACK_HANJA.
Proof. repeat constructor. Qed.

Lemma gemini_id_inj (now1 i1 now2 i2 : nat) :
  "gemini-" +:+ pretty now1 +:+ "-" +:+ pretty i1
  = "gemini-" +:+ pretty now2 +:+ "-" +:+ pretty i2 →
  now1 = now2 ∧ i1 = i2.
Proof.
  intros Heq. repeat (rewrite append_nil_l in Heq || rewrite append_String in Heq).
  injection Heq as Heq.
  apply split_at_last_dash in Heq as [H1 H2]; [|apply pretty_nat_digits..].
  by apply (inj pretty) in H1, H2.
Qed.

Lemma response_ids_NoDup (rawData : list RawItem) g count :
  NoDup (hanja_id <$> fetchHanjaData (ApiResponded rawData) g count).
Proof.
  cbn [fetchHanjaData]. apply NoDup_alt. intros i j x Hi Hj.
  rewrite list_lookup_fmap in Hi, Hj.
  rewrite list_lookup_imap in Hi, Hj.
  destruct (rawData !! i) as [a|]; [|done].
  destruct (rawData !! j) as [b|]; [|done].
  simpl in Hi, Hj. apply (inj Some) in Hi. subst x. apply (inj Some) in Hj.
  by apply gemini_id_inj in Hj as [_ ->].
Qed.

(** The pool of a new game has pairwise different ids, whatever the
    service did. *)
Lemma fetchHanjaData_NoDup api g count :
  NoDup (hanja_id <$> fetchHanjaData api g count).
Proof.
  destruct api as [| |rawData]; [| |apply response_ids_NoDup];
    cbn [fetchHanjaData]; rewrite slice_0;
    apply NoDup_fmap_take, FALLBACK_HANJA_ids.
Qed.

(** X4. Without an API key, and when the call fails, [fetchHanjaData]
    answers with the first [count] items of the fallback table: all 30
    when [count] is larger, with pairwise different ids, each with
    [hunEum] made of [hun], a space and [eum]. *)
Theorem fetchHanjaData_fallback (g : Grade) (count : nat) :
  fetchHanjaData ApiKeyMissing g count = take count FALLBACK_HANJA
  ∧ fetchHanjaData ApiFailed g count = take count FALLBACK_HANJA
  ∧ length (take count FALLBACK_HANJA) = Nat.min count 30
  ∧ NoDup (hanja_id <$> take count FALLBACK_HANJA)
  ∧ Forall (fun h => hunEum h = hun h +:+ " " +:+ eum h) (take count FALLBACK_HANJA).
Proof.
  split; [by rewrite <- slice_0|]. split; [by rewrite <- slice_0|].
  split; [by rewrite length_take|].
  split; [apply NoDup_fmap_take, FALLBACK_HANJA_ids|].
  apply Forall_take, FALLBACK_HANJA_hunEum.
Qed.

(** X5. From a response of the model [fetchHanjaData] makes one item per
    element, as many as the response holds whatever [count] is: the
    characters, meanings and sounds in the order of the response,
    [hunEum] made of [hun], a space and [eum], and ids that differ from
    one another. *)
Theorem fetchHanjaData_response (rawData : list RawItem) (g : Grade) (count : nat) :
  length (fetchHanjaData (ApiResponded rawData) g count) = length rawData
  ∧ NoDup (hanja_id <$> fetchHanjaData (ApiResponded rawData) g count)
  ∧ char <$> fetchHanjaData (ApiResponded rawData) g count = raw_char <$> rawData
  ∧ hun <$> fetchHanjaData (ApiResponded rawData) g count = raw_hun <$> rawData
  ∧ eum <$> fetchHanjaData (ApiResponded rawData) g count = raw_eum <$> rawData
  ∧ Forall (fun h => hunEum h = hun h +:+ " " +:+ eum h)
           (fetchHanjaData (ApiResponded rawData) g count).
Proof.
  split; [cbn [fetchHanjaData]; by rewrite length_imap|].
  split; [apply response_ids_NoDup|]. cbn [fetchHanjaData].
  split; [|split; [|split]].
  - apply list_eq. intros i. rewrite !list_lookup_fmap, list_lookup_imap.
    by destruct (rawData !! i).
  - apply list_eq. intros i. rewrite !list_lookup_fmap, list_lookup_imap.
    by destruct (rawData !! i).
  - apply list_eq. intros i. rewrite !list_lookup_fmap, list_lookup_imap.
    by destruct (rawData !! i).
  - apply Forall_forall. intros h (i & item & -> & _)%elem_of_lookup_imap. done.
Qed.

Lemma newPlayers_length st pool seeds :
  length (newPlayers st pool seeds) = playerCount st.
Proof. unfold newPlayers. by rewrite length_fmap, length_seq. Qed.

Lemma newPlayers_lookup st pool seeds i p :
  newPlayers st pool seeds !! i = Some p →
  i < playerCount st
  ∧ p = mkPlayer ("player-" +:+ pretty (i + 1))
                 (if (i =? 0)%nat then "P1 나" else "P" +:+ pretty (i + 1) +:+ " AI")
                 (negb (i =? 0)%nat)
                 (imap (fun idx h =>
                          mkCell (hanja_id h +:+ "-" +:+ pretty i) h false false idx)
                       (shuffle (seeds i) pool))
                 0 (COLORS !! i) 0 false.
Proof.
  unfold newPlayers. rewrite list_lookup_fmap.
  destruct (seq 0 (playerCount st) !! i) as [k|] eqn:Hk; [|done].
  apply lookup_seq in Hk as [-> Hlt]. simpl. by intros [= <-].
Qed.

Lemma newPlayers_board st pool seeds i p :
  newPlayers st pool seeds !! i = Some p →
  hanja <$> board p = shuffle (seeds i) pool
  ∧ Forall (fun c => isFlipped c = false) (board p).
Proof.
  intros [_ ->]%newPlayers_lookup. cbn [board]. split.
  - apply list_eq. intros k. rewrite list_lookup_fmap, list_lookup_imap.
    by destruct (shuffle (seeds i) pool !! k).
  - apply Forall_forall. by intros c (k & h & -> & _)%elem_of_lookup_imap.
Qed.

Lemma newPlayers_seatOk st pool seeds i p :
  newPlayers st pool seeds !! i = Some p → seatOk i p.
Proof.
  intros [_ ->]%newPlayers_lookup. do 6 (split; [done|]).
  intros k c. cbn [board]. rewrite list_lookup_imap.
  destruct (shuffle (seeds i) pool !! k); [|done]. by intros [= <-].
Qed.

(** X6. [startGame] builds as many players as the settings say.  The
    player at place [i] is [player-(i+1)], the human at place 0 and an
    AI elsewhere, with score 0 and the colour of its place.  Its board
    holds the items of the pool, each once, in an order of its own: one
    cell per item, none flipped or peeked, with [gridIndex] its place on
    the board and an id made of the item's id and [i]. *)
Theorem newPlayers_roster (st : GameSettings) (pool : list HanjaData)
    (seeds : nat → list nat) (i : nat) :
  i < playerCount st →
  length (newPlayers st pool seeds) = playerCount st
  ∧ ∃ p, newPlayers st pool seeds !! i = Some p
         ∧ player_id p = "player-" +:+ pretty (i + 1)
         ∧ isAI p = negb (i =? 0)%nat
         ∧ score p = 0
         ∧ color p = COLORS !! i
         ∧ hanja <$> board p ≡ₚ pool
         ∧ length (board p) = length pool
         ∧ ∀ k c, board p !! k = Some c →
                  isFlipped c = false ∧ isPeeked c = false ∧ gridIndex c = k
                  ∧ cell_id c = hanja_id (hanja c) +:+ "-" +:+ pretty i.
Proof.
  intros Hi. split; [apply newPlayers_length|].
  destruct (lookup_lt_is_Some_2 (newPlayers st pool seeds) i) as [p Hp].
  { by rewrite newPlayers_length. }
  exists p. split; [done|].
  destruct (newPlayers_seatOk _ _ _ _ _ Hp) as (Hid & _ & Hai & Hcol & _ & _ & Hcells).
  destruct (newPlayers_board _ _ _ _ _ Hp) as [Hb Hun].
  do 2 (split; [done|]).
  split; [by apply newPlayers_lookup in Hp as [_ ->]|]. split; [done|].
  split; [rewrite Hb; apply shuffle_Permutation|].
  split.
  { rewrite <- (length_fmap hanja), Hb. apply shuffle_length. }
  intros k c Hc. destruct (Hcells k c Hc) as (? & ? & ?).
  rewrite Forall_forall in Hun. split; [|done].
  apply Hun. by eapply list_elem_of_lookup_2.
Qed.

Lemma rand_floor_lt r n : 0 < n → rand_floor r n < n.
Proof.
  intros Hn. unfold rand_floor, rden.
  apply Nat.Div0.div_lt_upper_bound. nia.
Qed.

(** X7. When the pool has arrived [startGame] installs the new players,
    draws the first turn among them and enters TURN_START: the turn
    index is the place of one of the new players.  The countdown, the
    peeked cards and the quiz of the state it runs in stay as they
    are. *)
Theorem startGame_resume_first_turn (api : ApiOutcome) (seeds : nat → list nat)
    (r : Rand) (snap s : State) :
  0 < playerCount (settings snap) →
  ∃ t p,
    phase (startGame_resume api seeds r snap s) = TURN_START
    ∧ players (startGame_resume api seeds r snap s)
      = newPlayers (settings snap)
                   (fetchHanjaData api (grade (settings snap)) 25) seeds
    ∧ turnIndex (startGame_resume api seeds r snap s) = Num t
    ∧ t < playerCount (settings snap)
    ∧ activePlayer (startGame_resume api seeds r snap s) = Some p
    ∧ player_id p = "player-" +:+ pretty (t + 1)
    ∧ timeLeft (startGame_resume api seeds r snap s) = timeLeft s
    ∧ peekedCardIds (startGame_resume api seeds r snap s) = peekedCardIds s
    ∧ quizState (startGame_resume api seeds r snap s) = quizState s.
Proof.
  intros Hn.
  set (ps := newPlayers (settings snap)
               (fetchHanjaData api (grade (settings snap)) 25) seeds).
  assert (rand_floor r (length ps) < length ps) as Hlt.
  { apply rand_floor_lt. unfold ps. by rewrite newPlayers_length. }
  destruct (lookup_lt_is_Some_2 ps _ Hlt) as [p Hp].
  exists (rand_floor r (length ps)), p.
  split; [done|]. split; [done|]. split; [done|].
  split; [by rewrite <- (newPlayers_length (settings snap)
                          (fetchHanjaData api (grade (settings snap)) 25) seeds)|].
  split; [exact Hp|]. split; [|done].
  by destruct (newPlayers_seatOk _ _ _ _ _ Hp) as (Hid & _).
Qed.

End NewGame.

(** ** What every callback leaves alone *)

Section Frames.

Local Ltac open_fire H :=
  cbn [fire] in H;
  try unfold timerExpiryEffect in H; try unfold aiSelect in H;
  try unfold aiAnswer in H; try unfold bystanderAnswer in H;
  try unfold cardOnClick in H; try unfold optionOnClick in H;
  try unfold evaluateRound in H; try unfold handleSelectCard in H;
  try unfold handlePeekClick in H; try unfold turnStartEffect in H;
  try unfold timerInitEffect in H; try unfold showResultsEffect in H;
  repeat first
    [ progress simplify_eq/=
    | case_match
    | match goal with
      | H' : (?x ≫= _) = Some _ |- _ => destruct x eqn:?
      end ];
  try done.

(** The settings are written by the three controls of the setup screen
    only. *)
Lemma fire_settings e snap s s' :
  fire e snap s = Some s' →
  settings s' = settings s
  ∨ (∃ num, e = SetPlayerCount num ∧ num ∈ [2; 3; 4]
            ∧ settings s' = mkSettings (grade (settings snap)) num
                                       (mode (settings snap)) (winLines (settings snap)))
  ∨ (∃ num, e = SetWinLines num ∧ num ∈ [1; 3]
            ∧ settings s' = mkSettings (grade (settings snap)) (playerCount (settings snap))
                                       (mode (settings snap)) num)
  ∨ (∃ g, e = SetGrade g
          ∧ settings s' = mkSettings g (playerCount (settings snap))
                                     (mode (settings snap)) (winLines (settings snap))).
Proof.
  intros Hfire. destruct e.
  - right; left. cbn [fire] in Hfire. case_match; [|done]. injection Hfire as <-.
    exists num. split; [done|]. split; [|done].
    apply andb_prop in H as [_ H]. by apply bool_decide_eq_true in H.
  - right; right; left. cbn [fire] in Hfire. case_match; [|done].
    injection Hfire as <-. exists num. split; [done|]. split; [|done].
    apply andb_prop in H as [_ H]. by apply bool_decide_eq_true in H.
  - right; right; right. cbn [fire] in Hfire. case_match; [|done].
    injection Hfire as <-. by exists g.
  - left. open_fire Hfire.
  - left. open_fire Hfire.
  - left. open_fire Hfire.
  - left. open_fire Hfire.
  - left. open_fire Hfire.
  - left. open_fire Hfire.
  - left. open_fire Hfire.
  - left. open_fire Hfire.
  - left. open_fire Hfire.
  - left. open_fire Hfire.
  - left. open_fire Hfire.
  - left. open_fire Hfire.
  - left. open_fire Hfire.
  - left. open_fire Hfire.
  - left. open_fire Hfire.
  - left. open_fire Hfire.
  - left. open_fire Hfire.
  - left. open_fire Hfire.
Qed.

(** The log never grows beyond five lines. *)
Lemma addLog_length msg s : length (gameLog (addLog msg s)) ≤ 5.
Proof. unfold addLog, slice. cbn [gameLog setGameLog]. rewrite length_take. lia. Qed.

Lemma fire_gameLog e snap s s' :
  fire e snap s = Some s' → length (gameLog s) ≤ 5 → length (gameLog s') ≤ 5.
Proof.
  intros Hfire Hlen.
  destruct e; open_fire Hfire; simpl; rewrite ?length_take; lia.
Qed.

(** How [players] changes. *)
Lemma fire_players_cases e snap s s' :
  fire e snap s = Some s' →
  players s' = players s
  ∨ (∃ api seeds,
       players s' = newPlayers (settings snap)
                      (fetchHanjaData api (grade (settings snap)) 25) seeds)
  ∨ (∃ q, nextPlayers (players snap) q = Some (players s')).
Proof.
  intros Hfire. destruct (isNewGame e) eqn:Hnew.
  - destruct e; try done. cbn [fire] in Hfire. case_match; [|done].
    injection Hfire as <-. right; left. by exists api, seeds.
  - destruct (fire_players e snap s s' Hfire Hnew) as [->|[_ Hq]]; auto.
Qed.

Lemma fire_not_EVALUATE e snap s s' :
  fire e snap s = Some s' → phase s ≠ EVALUATE → phase s' ≠ EVALUATE.
Proof. intros Hfire Hne. destruct e; open_fire Hfire. Qed.

End Frames.

(** ** Invariants of the runs *)

Section Invariants.

Lemma fire_settingsOk e snap s s' :
  settingsOk (settings snap) → settingsOk (settings s) →
  fire e snap s = Some s' → settingsOk (settings s').
Proof.
  intros (Hpc & Hwl & Hm) Hs Hfire.
  destruct (fire_settings e snap s s' Hfire)
    as [->|[(num & _ & Hnum & ->)|[(num & _ & Hnum & ->)|(g & _ & ->)]]]; done.
Qed.

(** A property of [players] that holds of no players, of the players of
    a new game, and is kept by the round evaluation, holds in every state
    of every run. *)
Lemma Reachable_players (Q : list Player → Prop) :
  Q [] →
  (∀ st api seeds, settingsOk st →
                   Q (newPlayers st (fetchHanjaData api (grade st) 25) seeds)) →
  (∀ ps q ps', Q ps → nextPlayers ps q = Some ps' → Q ps') →
  ∀ s, Reachable s → Q (players s).
Proof.
  intros Hnil Hnew Hnext s Hs.
  enough (settingsOk (settings s) ∧ Q (players s)) as [_ H] by done.
  revert s Hs.
  apply (Reachable_invariant (fun s => settingsOk (settings s) ∧ Q (players s))).
  - split; [|done]. split; [|split]; [set_solver..|done].
  - intros e snap s s' [Hsts HQs] [Hst HQ] Hfire.
    split; [exact (fire_settingsOk e snap s s' Hsts Hst Hfire)|].
    destruct (fire_players_cases e snap s s' Hfire)
      as [->|[(api & seeds & ->)|[q Hq]]]; [done|by apply Hnew|exact (Hnext _ _ _ HQs Hq)].
Qed.

(** What the round evaluation makes of one player. *)
Lemma nextPlayers_lookup ps q ps' i p' :
  nextPlayers ps q = Some ps' → ps' !! i = Some p' →
  ∃ p, ps !! i = Some p
       ∧ (p' = p
          ∨ ∃ n, checkBingo (flipBoard (correctOptionId q) (board p)) = Some n
                 ∧ p' = mkPlayer (player_id p) (name p) (isAI p)
                          (flipBoard (correctOptionId q) (board p)) n
                          (color p) (bonusGauge p) (hasShield p)).
Proof.
  unfold nextPlayers. cbv zeta. intros Hm%mapM_Some Hp'.
  destruct (Forall2_lookup_r _ _ _ _ _ Hm Hp') as (p & Hp & Hstep).
  exists p. split; [done|].
  case_bool_decide; [|injection Hstep as <-; by left].
  fold (flipBoard (correctOptionId q) (board p)) in Hstep.
  destruct (checkBingo _) as [n|] eqn:Hn; [|done]. injection Hstep as <-.
  right. by exists n.
Qed.

Lemma nextPlayers_length ps q ps' :
  nextPlayers ps q = Some ps' → length ps' = length ps.
Proof.
  unfold nextPlayers. cbv zeta. intros Hm%mapM_Some.
  symmetry. by eapply Forall2_length.
Qed.

Lemma nextPlayers_elem ps q ps' p' :
  nextPlayers ps q = Some ps' → p' ∈ ps' →
  ∃ p, p ∈ ps
       ∧ (p' = p
          ∨ ∃ n, checkBingo (flipBoard (correctOptionId q) (board p)) = Some n
                 ∧ p' = mkPlayer (player_id p) (name p) (isAI p)
                          (flipBoard (correctOptionId q) (board p)) n
                          (color p) (bonusGauge p) (hasShield p)).
Proof.
  intros Hnp (i & Hi)%list_elem_of_lookup_1.
  destruct (nextPlayers_lookup _ _ _ _ _ Hnp Hi) as (p & Hp & H).
  exists p. split; [by eapply list_elem_of_lookup_2|done].
Qed.

Lemma flipBoard_hanja cid b : hanja <$> flipBoard cid b = hanja <$> b.
Proof.
  unfold flipBoard. rewrite <- list_fmap_compose. apply list_fmap_ext.
  intros ? c _. simpl. by case_match.
Qed.

Lemma seatOk_flip i p cid n :
  seatOk i p →
  seatOk i (mkPlayer (player_id p) (name p) (isAI p) (flipBoard cid (board p)) n
                     (color p) (bonusGauge p) (hasShield p)).
Proof.
  intros (? & ? & ? & ? & ? & ? & Hcells). do 6 (split; [done|]).
  intros k c. cbn [board]. unfold flipBoard. rewrite list_lookup_fmap.
  destruct (board p !! k) as [c0|] eqn:Hc0; [|done]. simpl. intros [= <-].
  destruct (Hcells k c0 Hc0) as (? & ? & ?).
  by destruct (String.eqb _ _).
Qed.

Lemma Reachable_rosterOk s : Reachable s → rosterOk (players s).
Proof.
  apply (Reachable_players rosterOk).
  - split; [set_solver|]. by intros i p.
  - intros st api seeds (Hpc & _). split.
    + rewrite newPlayers_length. by right.
    + intros i p. apply newPlayers_seatOk.
  - intros ps q ps' [Hlen Hseat] Hnp. split.
    + by rewrite (nextPlayers_length _ _ _ Hnp).
    + intros i p' Hp'.
      destruct (nextPlayers_lookup _ _ _ _ _ Hnp Hp') as (p & Hp & [->|(n & _ & ->)]).
      * by apply Hseat.
      * by apply seatOk_flip, Hseat.
Qed.

Lemma Reachable_samePool s : Reachable s → samePool (players s).
Proof.
  apply (Reachable_players samePool).
  - exists []. split; [constructor|]. by intros p Hp%elem_of_nil.
  - intros st api seeds _. exists (fetchHanjaData api (grade st) 25).
    split; [apply fetchHanjaData_NoDup|].
    intros p (i & Hi)%list_elem_of_lookup_1.
    destruct (newPlayers_board _ _ _ _ _ Hi) as [-> _]. apply shuffle_Permutation.
  - intros ps q ps' (pool & Hnd & Hpool) Hnp. exists pool. split; [done|].
    intros p' Hp'.
    destruct (nextPlayers_elem _ _ _ _ Hnp Hp') as (p & Hp & [->|(n & _ & ->)]).
    + by apply Hpool.
    + cbn [board]. rewrite flipBoard_hanja. by apply Hpool.
Qed.

Lemma unflipped_count board :
  Forall (fun c => isFlipped c = false) board → spec_countCompletedLines board = 0.
Proof.
  intros Hall. unfold spec_countCompletedLines.
  pose proof spec_lines_shape as Hs.
  induction Hs as [|line ls [Hne _] _ IH]; [done|].
  simpl. destruct line as [|i line]; [done|]. simpl.
  replace (flippedAt board i) with false; [done|].
  unfold flippedAt. destruct (board !! i) as [c|] eqn:Hc; [|done].
  rewrite Forall_forall in Hall. symmetry. apply Hall.
  by eapply list_elem_of_lookup_2.
Qed.

Lemma Reachable_scoresOk s : Reachable s → scoresOk (players s).
Proof.
  apply (Reachable_players scoresOk).
  - by intros p Hp%elem_of_nil.
  - intros st api seeds _ p (i & Hi)%list_elem_of_lookup_1.
    destruct (newPlayers_board _ _ _ _ _ Hi) as [_ Hun].
    apply newPlayers_lookup in Hi as [_ Hp].
    assert (score p = 0) as Hsc by (by rewrite Hp).
    split.
    + intros Hlen. rewrite checkBingo_long by done.
      by rewrite unflipped_count, Hsc.
    + done.
  - intros ps q ps' Hok Hnp p' Hp'.
    destruct (nextPlayers_elem _ _ _ _ Hnp Hp') as (p & Hp & [->|(n & Hn & ->)]).
    + by apply Hok.
    + cbn [board score]. split; [done|].
      intros Hlen. apply checkBingo_short in Hlen. congruence.
Qed.

(** Cell ids name one cell of one board. *)
Lemma cell_id_inj (hid1 hid2 : string) (i j : nat) :
  hid1 +:+ "-" +:+ pretty i = hid2 +:+ "-" +:+ pretty j → hid1 = hid2 ∧ i = j.
Proof.
  intros [H1 H2]%split_at_last_dash; [|apply pretty_nat_digits..].
  split; [done|]. by apply (inj pretty) in H2.
Qed.

End Invariants.

(** ** What holds in every state of every run *)

Section RunProperties.

(** X8. In every state of every run the settings are among those the
    setup screen offers: 2, 3 or 4 players, 1 or 3 lines to win, and the
    STANDARD mode. *)
Theorem run_settings_in_range (s : State) :
  Reachable s →
  playerCount (settings s) ∈ [2; 3; 4]
  ∧ winLines (settings s) ∈ [1; 3]
  ∧ mode (settings s) = STANDARD.
Proof.
  apply (Reachable_invariant (fun s => settingsOk (settings s))).
  - split; [|split]; [set_solver..|done].
  - intros e snap s1 s2. apply fire_settingsOk.
Qed.

(** X9. In every state of every run there are no players yet, or 2, 3
    or 4 of them, and the player at place [i] is still as [startGame]
    made it: [player-(i+1)], human at place 0 and AI elsewhere, with its
    name and colour, [bonusGauge] 0 and no shield, and on its board every
    cell keeps its id, its place as [gridIndex] and [isPeeked] false.
    Only [board] flips and [score] change. *)
Theorem run_roster (s : State) :
  Reachable s →
  length (players s) ∈ [0; 2; 3; 4]
  ∧ ∀ i p, players s !! i = Some p →
           player_id p = "player-" +:+ pretty (i + 1)
           ∧ name p = (if (i =? 0)%nat then "P1 나" else "P" +:+ pretty (i + 1) +:+ " AI")
           ∧ isAI p = negb (i =? 0)%nat
           ∧ color p = COLORS !! i
           ∧ bonusGauge p = 0
           ∧ hasShield p = false
           ∧ ∀ k c, board p !! k = Some c →
                    cell_id c = hanja_id (hanja c) +:+ "-" +:+ pretty i
                    ∧ gridIndex c = k
                    ∧ isPeeked c = false.
Proof.
  intros Hs. destruct (Reachable_rosterOk s Hs) as [Hlen Hseat].
  split; [exact Hlen|]. intros i p Hp. exact (Hseat i p Hp).
Qed.

Lemma player_1_seat (t : nat) : "player-" +:+ pretty (t + 1) = "player-1" ↔ t = 0.
Proof.
  split; [|by intros ->].
  change "player-1" with ("player-" +:+ pretty 1).
  intros H. repeat (rewrite append_nil_l in H || rewrite append_String in H).
  injection H as H. apply (inj pretty) in H. lia.
Qed.

(** X10. In every state of every run it is the human's turn exactly when
    the turn index is 0 and there are players, and whenever there is an
    active player, it is the human's turn exactly when that player is
    not an AI. *)
Theorem isMyTurn_iff_first_seat (s : State) :
  Reachable s →
  (isMyTurn s = true ↔ turnIndex s = Num 0 ∧ players s ≠ [])
  ∧ ∀ p, activePlayer s = Some p → isMyTurn s = negb (isAI p).
Proof.
  intros [_ Hseat]%Reachable_rosterOk. unfold isMyTurn, activePlayer. split.
  - destruct (turnIndex s) as [t|]; [|by split; [|intros [? _]]].
    destruct (players s !! t) as [p|] eqn:Hp.
    + destruct (Hseat t p Hp) as (Hid & _). rewrite bool_decide_eq_true, Hid.
      rewrite player_1_seat. split.
      * intros ->. split; [done|]. by destruct (players s).
      * by intros [[= ->] _].
    + split; [done|]. intros [[= ->] Hne]. by destruct (players s).
  - intros p Hact. rewrite Hact. destruct (turnIndex s) as [t|]; [|done].
    destruct (Hseat t p Hact) as (Hid & _ & -> & _). rewrite Hid.
    rewrite negb_involutive. destruct (Nat.eqb_spec t 0) as [->|Hne].
    + by apply bool_decide_eq_true.
    + apply bool_decide_eq_false. by rewrite player_1_seat.
Qed.

(** X11. In every state of every run the score of a player is the line
    count of its board: [checkBingo] of the board when it has 25 cells
    or more, which is at most 12; on a shorter board the score is 0 and
    no cell is flipped. *)
Theorem run_score_is_line_count (s : State) (p : Player) :
  Reachable s → p ∈ players s →
  (25 ≤ length (board p) →
   checkBingo (board p) = Some (score p) ∧ score p ≤ 12)
  ∧ (length (board p) < 25 →
     score p = 0 ∧ Forall (fun c => isFlipped c = false) (board p)).
Proof.
  intros Hs Hp. destruct (Reachable_scoresOk s Hs p Hp) as [Hlong Hshort].
  split; [|done]. intros Hlen. split; [by apply Hlong|].
  specialize (Hlong Hlen). rewrite checkBingo_long in Hlong by done.
  injection Hlong as <-. unfold spec_countCompletedLines.
  change 12 with (length spec_lines). apply length_filter_le.
Qed.

(** X12. In every state of every run all boards hold the same items,
    each once: the items of any two boards are rearrangements of one
    another, so the boards have the same length, and no two cells of a
    board carry items with the same id. *)
Theorem run_boards_hold_one_pool (s : State) (p p' : Player) :
  Reachable s → p ∈ players s → p' ∈ players s →
  hanja <$> board p ≡ₚ hanja <$> board p'
  ∧ length (board p) = length (board p')
  ∧ NoDup (hanja_id <$> (hanja <$> board p)).
Proof.
  intros (pool & Hnd & Hpool)%Reachable_samePool Hp Hp'.
  pose proof (Hpool p Hp) as H1. pose proof (Hpool p' Hp') as H2.
  split; [by rewrite H1, H2|]. split.
  - rewrite <- (length_fmap hanja (board p)), <- (length_fmap hanja (board p')).
    by rewrite H1, H2.
  - by rewrite H1.
Qed.

(** X13. In every state of every run an id names one cell: two cells
    with the same id are the same cell of the same player. *)
Theorem run_cell_ids_unique (s : State) (i j k l : nat) (p p' : Player)
    (c c' : Cell) :
  Reachable s →
  players s !! i = Some p → board p !! k = Some c →
  players s !! j = Some p' → board p' !! l = Some c' →
  cell_id c = cell_id c' →
  i = j ∧ k = l.
Proof.
  intros Hs Hp Hc Hp' Hc' Heq.
  destruct (Reachable_rosterOk s Hs) as [_ Hseat].
  destruct (Hseat i p Hp) as (_ & _ & _ & _ & _ & _ & Hcells).
  destruct (Hseat j p' Hp') as (_ & _ & _ & _ & _ & _ & Hcells').
  destruct (Hcells k c Hc) as (Hid & _). destruct (Hcells' l c' Hc') as (Hid' & _).
  rewrite Hid, Hid' in Heq. apply cell_id_inj in Heq as [Hh ->].
  split; [done|]. rewrite Hp in Hp'. injection Hp' as <-.
  destruct (Reachable_samePool s Hs) as (pool & Hnd & Hpool).
  assert (NoDup (hanja_id <$> (hanja <$> board p))) as Hndb.
  { rewrite (Hpool p); [done|]. by eapply list_elem_of_lookup_2. }
  eapply NoDup_lookup; [exact Hndb| |].
  - by rewrite !list_lookup_fmap, Hc.
  - rewrite !list_lookup_fmap, Hc'. simpl. by rewrite Hh.
Qed.

(** X14. In every state of every run the game log holds at most five
    lines. *)
Theorem run_gameLog_at_most_five (s : State) :
  Reachable s → length (gameLog s) ≤ 5.
Proof.
  apply (Reachable_invariant (fun s => length (gameLog s) ≤ 5)).
  - simpl. lia.
  - intros e snap s1 s2 _ H Hfire. by eapply fire_gameLog.
Qed.

(** X15. No run enters the phase EVALUATE: the evaluation of a round
    happens in QUIZ and leads to TURN_START or GAME_OVER. *)
Theorem run_never_enters_EVALUATE (s : State) :
  Reachable s → phase s ≠ EVALUATE.
Proof.
  apply (Reachable_invariant (fun s => phase s ≠ EVALUATE)).
  - done.
  - intros e snap s1 s2 _ H Hfire. by eapply fire_not_EVALUATE.
Qed.

End RunProperties.

(** ** Selection, answers and the AI players *)

Section Selection.

Lemma filter_nil_Forall {A} (f : A → bool) (l : list A) :
  List.filter f l = [] ↔ Forall (fun x => f x = false) l.
Proof.
  induction l as [|x l IH]; simpl; [by split|].
  destruct (f x) eqn:Hx.
  - split; [done|]. intros [H _]%Forall_cons. congruence.
  - rewrite IH. split; [by constructor|by intros [_ ?]%Forall_cons].
Qed.

(** X16. The card picked for the active player when SELECT times out,
    and by an AI on its turn, is an unflipped cell of that player's board
    whenever there is one; when every cell is flipped it is the first
    cell; on an empty board there is none. *)
Theorem pickTarget_prefers_unflipped (seed : list nat) (p : Player) :
  (board p = [] → pickTarget seed p = None)
  ∧ ((∃ c, c ∈ board p ∧ isFlipped c = false) →
     ∃ t, pickTarget seed p = Some t ∧ t ∈ board p ∧ isFlipped t = false)
  ∧ (Forall (fun c => isFlipped c = true) (board p) →
     pickTarget seed p = board p !! 0).
Proof.
  unfold pickTarget. split; [by intros ->|]. split.
  - intros (c & Hc & Hf).
    set (unrevealed := List.filter (fun c => negb (isFlipped c)) (board p)).
    assert (c ∈ unrevealed) as Hin.
    { apply elem_of_List_filter. by rewrite Hf. }
    assert (0 < length unrevealed) as Hlen.
    { destruct unrevealed; [by apply elem_of_nil in Hin|simpl; lia]. }
    rewrite (proj2 (Nat.ltb_lt _ _) Hlen).
    destruct (lookup_lt_is_Some_2 (shuffle seed unrevealed) 0) as [t Ht].
    { by rewrite shuffle_length. }
    exists t. split; [done|].
    apply shuffle_head_elem, elem_of_List_filter in Ht as [Ht Hft].
    split; [done|]. by apply negb_true_iff.
  - intros Hall.
    assert (List.filter (fun c => negb (isFlipped c)) (board p) = []) as ->; [|done].
    apply filter_nil_Forall. eapply Forall_impl; [exact Hall|].
    intros c ->. done.
Qed.

(** X17. [handleSelectCard] tests neither the phase nor the cell: given
    any item, it builds a quiz on it from the board of [players[0]] of
    its render.  The options are the item and up to three other items
    of that board, as many as there are; the players, the countdown and
    the turn stay as they are.  Without players it throws. *)
Theorem handleSelectCard_options_count (r : Rand) (seed1 seed2 : list nat)
    (h : HanjaData) (snap s : State) :
  (players snap = [] → handleSelectCard r seed1 seed2 h snap s = None)
  ∧ ∀ p0, players snap !! 0 = Some p0 →
      ∃ s' q,
        handleSelectCard r seed1 seed2 h snap s = Some s'
        ∧ phase s' = QUIZ
        ∧ quizState s' = Some q
        ∧ length (options q)
          = 1 + Nat.min 3 (length (List.filter
                                     (fun x => negb (String.eqb (hanja_id x) (hanja_id h)))
                                     (hanja <$> board p0)))
        ∧ h ∈ options q
        ∧ (∀ o, o ∈ options q →
                o = h ∨ (o ∈ hanja <$> board p0 ∧ hanja_id o ≠ hanja_id h))
        ∧ players s' = players s
        ∧ turnIndex s' = turnIndex s
        ∧ timeLeft s' = timeLeft s.
Proof.
  split.
  { intros Hnil. unfold handleSelectCard. by rewrite Hnil. }
  intros p0 Hp0. unfold handleSelectCard. rewrite Hp0. cbn [mbind option_bind].
  eexists _, _. split; [reflexivity|].
  cbn [phase quizState players turnIndex timeLeft options
       addLog setGameLog setPhase setQuizState].
  split; [done|]. split; [done|]. cbn [options]. split.
  { rewrite shuffle_length. cbn [length]. f_equal.
    rewrite slice_0, length_take, shuffle_length. done. }
  split.
  { apply elem_of_shuffle. left. }
  split; [|done].
  intros o [->|Ho]%elem_of_shuffle%elem_of_cons; [by left|right].
  rewrite slice_0 in Ho.
  apply (subseteq_take 3), elem_of_shuffle, elem_of_List_filter in Ho as [Ho Hne].
  split; [done|]. by apply negb_true_iff, String.eqb_neq in Hne.
Qed.

End Selection.

Section AnswersAndAI.


(** X19. When the correct option is among the options, what an AI
    submits is the id of one of the options, for the AI whose turn it is
    as for the others.  With no options at all both throw on their
    incorrect branch. *)
Theorem ai_answers_are_option_ids (r : Rand) (seed : list nat) (q : QuizState) :
  (correctOptionId q ∈ hanja_id <$> options q →
   (∃ a, aiAnswerId r seed q = Some a ∧ a ∈ hanja_id <$> options q)
   ∧ (∃ a, bystanderAnswerId r seed q = Some a ∧ a ∈ hanja_id <$> options q))
  ∧ (options q = [] →
     (rand_gt r 1 5 = false → aiAnswerId r seed q = None)
     ∧ (rand_gt r 3 10 = false → bystanderAnswerId r seed q = None)).
Proof.
  split.
  - intros Hc.
    assert (∃ o0, options q !! 0 = Some o0) as [o0 Ho0].
    { apply list_elem_of_fmap in Hc as (o & _ & Ho).
      destruct (options q) as [|o0 os]; [by apply elem_of_nil in Ho|by exists o0]. }
    assert (hanja_id o0 ∈ hanja_id <$> options q) as Hin0.
    { apply list_elem_of_fmap. exists o0. split; [done|].
      by eapply list_elem_of_lookup_2. }
    split.
    + unfold aiAnswerId. destruct (rand_gt r 1 5); [by exists (correctOptionId q)|].
      destruct (lookup_lt_is_Some_2 (shuffle seed (options q)) 0) as [o Ho].
      { rewrite shuffle_length. by eapply lookup_lt_Some. }
      rewrite Ho. exists (hanja_id o). split; [done|].
      apply list_elem_of_fmap. exists o. split; [done|].
      by eapply shuffle_head_elem.
    + unfold bystanderAnswerId.
      destruct (rand_gt r 3 10); [by exists (correctOptionId q)|].
      rewrite Ho0. cbn [mbind option_bind].
      destruct (shuffle seed _ !! 0) as [o|] eqn:Ho; [|by exists (hanja_id o0)].
      destruct (truthy (Some (hanja_id o))); [|by exists (hanja_id o0)].
      exists (hanja_id o). split; [done|].
      apply list_elem_of_fmap. exists o. split; [done|].
      by apply shuffle_head_elem, elem_of_List_filter in Ho as [Ho _].
  - intros Hnil. split; intros Hr.
    + unfold aiAnswerId. by rewrite Hr, Hnil.
    + unfold bystanderAnswerId. by rewrite Hr, Hnil.
Qed.

End AnswersAndAI.

(** ** The countdown at zero, the end of a round, the turn order *)

Section CountdownAtZero.

(** X20. When the shared countdown runs out in PEEK the turn goes
    through SELECT straight into QUIZ: the countdown effect ends the
    peek, and in the SELECT render that follows, where the countdown is
    still 0, it picks a card of the active player and starts the quiz
    on it. *)
Theorem peek_timeout_runs_into_quiz (r : Rand) (seed seed1 seed2 : list nat)
    (s : State) (ap p0 : Player) :
  phase s = PEEK → timeLeft s = 0%Z →
  activePlayer s = Some ap → board ap ≠ [] → players s !! 0 = Some p0 →
  ∃ s1 s2 t q,
    timerExpiryEffect r seed seed1 seed2 s s = Some s1
    ∧ phase s1 = SELECT ∧ timeLeft s1 = 0%Z ∧ peekedCardIds s1 = []
    ∧ timerExpiryEffect r seed seed1 seed2 s1 s1 = Some s2
    ∧ phase s2 = QUIZ ∧ timeLeft s2 = 0%Z
    ∧ pickTarget seed ap = Some t ∧ t ∈ board ap
    ∧ quizState s2 = Some q
    ∧ targetHanja q = Some (hanja t)
    ∧ correctOptionId q = hanja_id (hanja t)
    ∧ answers q = ∅.
Proof.
  intros Hph Ht Hap Hb Hp0.
  assert (∃ t, pickTarget seed ap = Some t) as [t Hpick].
  { unfold pickTarget. case_match eqn:Hlen.
    - apply lookup_lt_is_Some_2. rewrite shuffle_length.
      by apply Nat.ltb_lt in Hlen.
    - apply lookup_lt_is_Some_2. destruct (board ap); [done|simpl; lia]. }
  set (s1 := finishPeek s).
  assert (timerExpiryEffect r seed seed1 seed2 s s = Some s1) as H1.
  { unfold timerExpiryEffect, timerRunning.
    rewrite Ht, andb_false_r, bool_decide_eq_true_2, Hph by done.
    by rewrite bool_decide_eq_true_2. }
  destruct (handleSelectCard r seed1 seed2 (hanja t) s1
              (addLog "시간 초과! 랜덤 카드가 선택되었습니다." s1)) as [s2|] eqn:H2;
    [|by unfold handleSelectCard in H2; cbn [s1 finishPeek players setPeekedCardIds
                                           setPhase] in H2; rewrite Hp0 in H2].
  pose proof (handleSelectCard_Some _ _ _ _ _ _ _ H2)
    as (Hph2 & Ht2 & _ & _ & _ & q & Hq & Htar & Hcor & Hans & _).
  exists s1, s2, t, q.
  split; [done|]. split; [done|]. split; [by rewrite <- Ht|]. split; [done|].
  split.
  { unfold timerExpiryEffect, timerRunning.
    cbn [s1 finishPeek timeLeft phase setPeekedCardIds setPhase].
    rewrite Ht, andb_false_r, bool_decide_eq_true_2 by done.
    replace (activePlayer s1) with (Some ap) by (by rewrite <- Hap).
    rewrite bool_decide_eq_true_2 by done. rewrite Hpick.
    cbn [mbind option_bind]. exact H2. }
  split; [done|]. split; [by rewrite Ht2, <- Ht|].
  split; [done|]. split; [by eapply pickTarget_elem|]. done.
Qed.

(** X21. The effects of the render in which the phase became PEEK read
    the countdown of that render.  When it is 0 the countdown effect
    ends the peek at once, although the timer-initialisation effect has
    just set the countdown to 30: the turn goes on in SELECT with 30
    seconds.  When time is left the peek stays, with 30 seconds. *)
Theorem turn_entered_at_zero_skips_peek (r : Rand) (seed seed1 seed2 : list nat)
    (s : State) :
  phase s = PEEK →
  (timeLeft s = 0%Z →
   ∃ s', timerExpiryEffect r seed seed1 seed2 s (timerInitEffect s s) = Some s'
         ∧ phase s' = SELECT ∧ timeLeft s' = TURN_TIMEOUT
         ∧ peekedCardIds s' = [])
  ∧ ((0 < timeLeft s)%Z →
     ∃ s', timerExpiryEffect r seed seed1 seed2 s (timerInitEffect s s) = Some s'
           ∧ phase s' = PEEK ∧ timeLeft s' = TURN_TIMEOUT
           ∧ peekedCardIds s' = peekedCardIds s).
Proof.
  intros Hph.
  assert (timerInitEffect s s = setTimeLeft TURN_TIMEOUT s) as ->.
  { unfold timerInitEffect. rewrite Hph. done. }
  split; intros Ht.
  - eexists. split.
    + unfold timerExpiryEffect, timerRunning.
      rewrite Ht, andb_false_r, bool_decide_eq_true_2, Hph by done.
      by rewrite bool_decide_eq_true_2.
    + done.
  - eexists. split.
    + unfold timerExpiryEffect, timerRunning.
      rewrite Hph. rewrite (proj2 (Z.ltb_lt _ _) Ht). done.
    + done.
Qed.

End CountdownAtZero.

Section RoundCompletion.

Lemma nextPlayers_long ps q :
  Forall (fun p => 25 ≤ length (board p)) ps → is_Some (nextPlayers ps q).
Proof.
  intros Hall. unfold nextPlayers. cbv zeta. apply mapM_is_Some.
  eapply Forall_impl; [exact Hall|]. intros p Hp. simpl.
  case_bool_decide; [|by eexists].
  fold (flipBoard (correctOptionId q) (board p)).
  rewrite checkBingo_long by (by rewrite flipBoard_length). by eexists.
Qed.

Lemma timeoutFill_allAnswered ps q q' :
  (∀ k, answers q' !! k
        = if bool_decide (k ∈ player_id <$> missingPlayers ps q)
          then Some TIMEOUT_MARKER else answers q !! k) →
  allAnswered ps q' = true.
Proof.
  intros Hans. apply forallb_forall. intros p Hp%list_elem_of_In.
  rewrite Hans. case_bool_decide as Hm; [done|].
  destruct (truthy (answers q !! player_id p)) eqn:Ht; [done|].
  exfalso. apply Hm. apply list_elem_of_fmap. exists p. split; [done|].
  apply elem_of_missingPlayers. by rewrite Ht.
Qed.

(** X22. A quiz cannot hang: on boards of 25 cells or more, once the
    countdown is at zero with the results not shown, the countdown
    effect completes the answers, the results effect of the next render
    shows the results and schedules the evaluation, and the evaluation
    leaves QUIZ for the next turn, with the quiz removed, or for
    GAME_OVER. *)
Theorem quiz_timeout_completes_round (r : Rand) (seed seed1 seed2 : list nat)
    (s : State) (q : QuizState) :
  phase s = QUIZ → timeLeft s = 0%Z →
  quizState s = Some q → resultsShown q = false →
  Forall (fun p => 25 ≤ length (board p)) (players s) →
  ∃ s1 s2 s3 q2,
    timerExpiryEffect r seed seed1 seed2 s s = Some s1
    ∧ showResultsEffect s1 s1 = s2
    ∧ quizState s2 = Some q2 ∧ resultsShown q2 = true
    ∧ fire EvaluateRoundTimeout s1 s2 = Some s3
    ∧ (phase s3 = TURN_START ∧ quizState s3 = None
       ∨ phase s3 = GAME_OVER ∧ ∃ w, w ∈ players s3
                                     ∧ winLines (settings s) ≤ score w).
Proof.
  intros Hph Ht Hq Hrs Hlen.
  destruct (timerExpiry_quiz_answers r seed seed1 seed2 s q Hph Ht Hq Hrs)
    as (q1 & Hstep & _ & _ & _ & Hrs1 & Hans).
  pose proof (timeoutFill_allAnswered (players s) q q1 Hans) as Hall.
  set (s1 := setQuizState (Some q1) s) in *.
  set (q2 := mkQuiz (targetHanja q1) (type q1) (options q1) (correctOptionId q1)
                    (answers q1) true).
  assert (showResultsEffect s1 s1 = setQuizState (Some q2) s1) as Hshow.
  { unfold showResultsEffect, s1. cbn [phase quizState players setQuizState].
    rewrite bool_decide_eq_true_2 by done. rewrite Hall, Hrs1, Hrs. done. }
  destruct (nextPlayers_long (players s) q1 Hlen) as [ps' Hps'].
  exists s1, (setQuizState (Some q2) s1).
  destruct (findWinner (settings s) ps') as [w|] eqn:Hw.
  - eexists _, q2. split; [done|]. split; [done|]. split; [done|]. split; [done|].
    split.
    { cbn [fire]. unfold evaluateRound, s1.
      cbn [quizState phase players settings setQuizState mbind option_bind].
      rewrite bool_decide_eq_true_2 by done. rewrite Hall, Hrs1, Hrs.
      cbn [negb andb]. rewrite Hps'.
      cbn [mbind option_bind]. rewrite Hw. reflexivity. }
    right. split; [done|]. exists w.
    apply find_some in Hw as [Hin Hsc]. split.
    + cbn [players addLog setGameLog setPhase setPlayers]. by apply list_elem_of_In.
    + by apply Nat.leb_le.
  - eexists _, q2. split; [done|]. split; [done|]. split; [done|]. split; [done|].
    split.
    { cbn [fire]. unfold evaluateRound, s1.
      cbn [quizState phase players settings setQuizState mbind option_bind].
      rewrite bool_decide_eq_true_2 by done. rewrite Hall, Hrs1, Hrs.
      cbn [negb andb]. rewrite Hps'.
      cbn [mbind option_bind]. rewrite Hw. reflexivity. }
    left. done.
Qed.

End RoundCompletion.

Section TurnOrder.

Lemma nextTurn_iter len t k :
  0 < len →
  Nat.iter k (fun x => nextTurn x len) (Num t)
  = Num (if k is 0 then t else (t + k) mod len).
Proof.
  intros Hlen. induction k as [|k IH]; [done|].
  rewrite Nat.iter_succ, IH. unfold nextTurn.
  destruct (Nat.eqb_spec len 0) as [->|_]; [lia|]. f_equal.
  destruct k as [|k]; [done|].
  rewrite Nat.Div0.add_mod_idemp_l. f_equal. lia.
Qed.

(** X23. The turn passes round the table: with [len] players and the
    turn at [t], [k] evaluations without a winner bring it to
    [(t + k) mod len], every player is reached within [len] of them, and
    after [len] it is back at [t].  With no players the next turn index
    is [NaN], and [NaN] stays. *)
Theorem nextTurn_round_robin (len t : nat) :
  t < len →
  (∀ k, Nat.iter k (fun x => nextTurn x len) (Num t) = Num ((t + k) mod len))
  ∧ Nat.iter len (fun x => nextTurn x len) (Num t) = Num t
  ∧ (∀ j, j < len →
          ∃ k, k < len ∧ Nat.iter k (fun x => nextTurn x len) (Num t) = Num j)
  ∧ nextTurn (Num t) 0 = NaN
  ∧ nextTurn NaN len = NaN.
Proof.
  intros Ht. assert (0 < len) as Hlen by lia.
  assert (∀ k, Nat.iter k (fun x => nextTurn x len) (Num t)
               = Num ((t + k) mod len)) as Hk.
  { intros k. rewrite nextTurn_iter by done. destruct k; [|done].
    by rewrite Nat.add_0_r, Nat.mod_small. }
  split; [done|]. split.
  { rewrite Hk. f_equal.
    rewrite <- Nat.Div0.add_mod_idemp_r, Nat.Div0.mod_same, Nat.add_0_r.
    by apply Nat.mod_small. }
  split; [|done].
  intros j Hj. destruct (decide (t ≤ j)) as [Hle|Hgt].
  - exists (j - t). split; [lia|]. rewrite Hk. f_equal.
    replace (t + (j - t)) with j by lia. by apply Nat.mod_small.
  - exists (len + j - t). split; [lia|]. rewrite Hk. f_equal.
    replace (t + (len + j - t)) with (j + 1 * len) by lia.
    rewrite Nat.Div0.mod_add. by apply Nat.mod_small.
Qed.

End TurnOrder.

(** ** What the render shows *)

Section Rendering.

(** X24. The overlay of a cell is there only in QUIZ while the results
    are shown, on the cells that hold the item of the quiz.  It is the
    check mark for the players whose answer is the correct option, and
    among the cells not flipped before these are the cells the
    evaluation flips. *)
Theorem renderCellOverlay_marks_flipped_cells (s : State) (q : QuizState)
    (h : HanjaData) (p : Player) (c : Cell) :
  quizState s = Some q →
  targetHanja q = Some h → correctOptionId q = hanja_id h →
  (phase s ≠ QUIZ ∨ resultsShown q = false ∨ hanja_id (hanja c) ≠ hanja_id h ↔
   renderCellOverlay s (hanja_id (hanja c)) p = None)
  ∧ (renderCellOverlay s (hanja_id (hanja c)) p = Some CheckMark →
     answers q !! player_id p = Some (hanja_id h))
  ∧ (phase s = QUIZ → resultsShown q = true →
     ∀ ps' i p' k c',
       nextPlayers (players s) q = Some ps' →
       players s !! i = Some p → ps' !! i = Some p' →
       board p !! k = Some c → board p' !! k = Some c' →
       isFlipped c = false →
       (isFlipped c' = true ↔
        renderCellOverlay s (hanja_id (hanja c)) p = Some CheckMark)).
Proof.
  intros Hq Htar Hcor. unfold renderCellOverlay. rewrite Hq, Htar, Hcor.
  cbn [fmap option_fmap option_map].
  split; [|split].
  - split.
    + intros [Hph|[Hrs|Hne]].
      * by rewrite bool_decide_eq_false_2.
      * rewrite Hrs. by rewrite andb_false_r.
      * rewrite (bool_decide_eq_false_2 (Some _ = Some _)); [|by intros [= ?]].
        by rewrite andb_false_r.
    + case_bool_decide as Hph; [|by left].
      destruct (resultsShown q); [|by right; left].
      case_bool_decide as Hid; [done|]. intros _. right; right.
      intros Heq. apply Hid. by rewrite Heq.
  - destruct (_ && _ && _); [|done]. case_bool_decide; [done|by intros [=]].
  - intros Hph Hrs ps' i p' k c' Hnp Hp Hp' Hc Hc' Hf.
    rewrite bool_decide_eq_true_2, Hrs by done. cbn [andb].
    unfold nextPlayers in Hnp. cbv zeta in Hnp. apply mapM_Some in Hnp.
    destruct (Forall2_lookup_l _ _ _ _ _ Hnp Hp) as (p1 & Hp1 & Hstep).
    rewrite Hp' in Hp1. injection Hp1 as <-. rewrite Hcor in Hstep.
    case_bool_decide as Hans.
    + destruct (checkBingo _); [|discriminate Hstep]. injection Hstep as <-.
      cbn [board] in Hc'. rewrite list_lookup_fmap, Hc in Hc'. simpl in Hc'.
      injection Hc' as <-.
      destruct (String.eqb_spec (hanja_id (hanja c)) (hanja_id h)) as [Heq|Hne].
      * rewrite bool_decide_eq_true_2 by (by rewrite Heq). by split.
      * rewrite bool_decide_eq_false_2 by (by intros [= ?]). split; [congruence|done].
    + injection Hstep as <-. rewrite Hc in Hc'. injection Hc' as <-.
      split; [congruence|]. by case_bool_decide.
Qed.

(** X25. Once the results are shown, the avatar of a player stands on
    the option the player answered: on that option, and when the options
    have pairwise different ids on no other; a player whose answer is
    the timeout marker stands on no option with another id. *)
Theorem answerAvatars_follow_answers (ps : list Player) (q : QuizState)
    (p : Player) :
  (∀ o, p ∈ answerAvatars ps q o ↔
        p ∈ ps ∧ answers q !! player_id p = Some (hanja_id o))
  ∧ (NoDup (hanja_id <$> options q) →
     ∀ o1 o2, o1 ∈ options q → o2 ∈ options q →
              p ∈ answerAvatars ps q o1 → p ∈ answerAvatars ps q o2 → o1 = o2)
  ∧ (answers q !! player_id p = Some TIMEOUT_MARKER →
     ∀ o, hanja_id o ≠ TIMEOUT_MARKER → p ∉ answerAvatars ps q o).
Proof.
  assert (∀ o, p ∈ answerAvatars ps q o ↔
               p ∈ ps ∧ answers q !! player_id p = Some (hanja_id o)) as Hiff.
  { intros o. unfold answerAvatars. rewrite elem_of_List_filter.
    by rewrite bool_decide_eq_true. }
  split; [done|]. split.
  - intros Hnd o1 o2 Ho1 Ho2 [_ H1]%Hiff [_ H2]%Hiff.
    rewrite H1 in H2. injection H2 as Hid.
    apply list_elem_of_lookup_1 in Ho1 as [i1 Hi1].
    apply list_elem_of_lookup_1 in Ho2 as [i2 Hi2].
    assert (i1 = i2) as ->.
    { eapply NoDup_lookup; [exact Hnd| |].
      - by rewrite list_lookup_fmap, Hi1.
      - rewrite list_lookup_fmap, Hi2. simpl. by rewrite Hid. }
    congruence.
  - intros Hm o Hne [_ Ho]%Hiff. rewrite Hm in Ho. by injection Ho as Ho.
Qed.

Lemma keepDigits_digit a c rest :
  keepDigits a = a → a = String c rest → isDigit c = true ∧ keepDigits rest = rest.
Proof.
  intros Hk ->. simpl in Hk. destruct (isDigit c) eqn:Hc.
  - split; [done|]. by injection Hk.
  - pose proof (keepDigits_length rest) as Hlen. rewrite Hk in Hlen.
    simpl in Hlen. lia.
Qed.

Lemma includes_digits (b : Ascii.ascii) (rest a t : string) :
  isDigit b = false → keepDigits a = a →
  includes (String b rest) t = false →
  includes (String b rest) (a +:+ t) = false.
Proof.
  intros Hb Ha Ht. induction a as [|c a IH].
  { by rewrite append_nil_l. }
  destruct (keepDigits_digit _ c a Ha eq_refl) as [Hc Ha'].
  rewrite append_String. cbn [includes String.prefix].
  destruct (Ascii.ascii_dec b c) as [->|_]; [congruence|].
  by apply IH.
Qed.

Lemma append_nil_r (s : string) : s +:+ "" = s.
Proof.
  induction s as [|c s IH]; [done|]. by rewrite append_String, IH.
Qed.

Lemma avatarLabel_seat (i : nat) :
  avatarLabel (if (i =? 0)%nat then "P1 나" else "P" +:+ pretty (i + 1) +:+ " AI")
  = if (i =? 0)%nat then "Me" else pretty (i + 1).
Proof.
  destruct (i =? 0)%nat; [reflexivity|]. unfold avatarLabel.
  assert (includes "나" ("P" +:+ pretty (i + 1) +:+ " AI") = false) as ->.
  { rewrite append_String, append_nil_l. cbn [includes String.prefix].
    destruct (Ascii.ascii_dec _ _) as [Heq|_]; [discriminate Heq|].
    apply includes_digits; [reflexivity|apply pretty_nat_digits|reflexivity]. }
  rewrite append_String, append_nil_l. cbn [keepDigits].
  match goal with |- context [isDigit ?c] => change (isDigit c) with false end.
  cbv iota.
  rewrite keepDigits_app, pretty_nat_digits.
  change (keepDigits " AI") with "". apply append_nil_r.
Qed.

(** X26. In every state of every run the avatar of the human reads
    [Me] and the avatar of the AI at place [i] reads its number,
    [i + 1]. *)
Theorem avatarLabel_of_player (s : State) (i : nat) (p : Player) :
  Reachable s → players s !! i = Some p →
  avatarLabel (name p) = if (i =? 0)%nat then "Me" else pretty (i + 1).
Proof.
  intros [_ Hseat]%Reachable_rosterOk Hp.
  destruct (Hseat i p Hp) as (_ & -> & _). apply avatarLabel_seat.
Qed.

End Rendering.

(** ** Peeking and scores *)

Section Peeking.

(** X27. An AI on its turn peeks at two unflipped cells of its own
    board, or at as many as are left, and [peekedCardIds] holds their
    ids.  None of them is the id of a cell of the human's board: the
    human's cards show their face exactly when they are flipped. *)
Theorem aiPeek_hidden_from_human (seed : list nat) (i : nat) (ap me : Player)
    (snap s : State) :
  Reachable snap → Reachable s →
  players snap !! i = Some ap → i ≠ 0 → players s !! 0 = Some me →
  length (peekedCardIds (aiPeek seed ap s))
  = Nat.min 2 (length (List.filter (fun c => negb (isFlipped c)) (board ap)))
  ∧ (∀ id, id ∈ peekedCardIds (aiPeek seed ap s) →
           ∃ c, c ∈ board ap ∧ cell_id c = id ∧ isFlipped c = false)
  ∧ (∀ c, c ∈ board me → cardFaceUp (aiPeek seed ap s) c = isFlipped c).
Proof.
  intros Hsnap Hs Hap Hi Hme.
  assert (∀ id, id ∈ peekedCardIds (aiPeek seed ap s) →
                ∃ c, c ∈ board ap ∧ cell_id c = id ∧ isFlipped c = false) as Hids.
  { intros id. unfold aiPeek. cbn [peekedCardIds setPeekedCardIds].
    intros (c & -> & Hc)%list_elem_of_fmap. exists c.
    rewrite slice_0 in Hc.
    apply subseteq_take, elem_of_shuffle, elem_of_List_filter in Hc as [Hc Hf].
    split; [done|]. split; [done|]. by apply negb_true_iff. }
  split; [|split; [done|]].
  - unfold aiPeek. cbn [peekedCardIds setPeekedCardIds].
    rewrite length_fmap, slice_0, length_take, shuffle_length. lia.
  - intros c Hc. unfold cardFaceUp.
    rewrite (bool_decide_eq_false_2 (cell_id c ∈ _)); [by rewrite orb_false_r|].
    intros (c' & Hc' & Hid & _)%Hids.
    apply list_elem_of_lookup_1 in Hc as [k Hk].
    apply list_elem_of_lookup_1 in Hc' as [k' Hk'].
    destruct (Reachable_rosterOk snap Hsnap) as [_ Hseat].
    destruct (Hseat i ap Hap) as (_ & _ & _ & _ & _ & _ & Hcells).
    destruct (Hcells k' c' Hk') as (Hid' & _).
    destruct (Reachable_rosterOk s Hs) as [_ Hseat0].
    destruct (Hseat0 0 me Hme) as (_ & _ & _ & _ & _ & _ & Hcells0).
    destruct (Hcells0 k c Hk) as (Hid0 & _).
    rewrite Hid', Hid0 in Hid. by apply cell_id_inj in Hid as [_ ->].
Qed.

(** X28. A click of the human on a card in PEEK adds the id of the cell
    to the peeked cards when the cell is not flipped, not peeked yet and
    fewer than three are peeked; otherwise it changes nothing.  So the
    peeked cards stay at most three, without repetition, and nothing
    but [peekedCardIds] changes. *)
Theorem handlePeekClick_at_most_three (cell : Cell) (s : State) :
  length (peekedCardIds s) ≤ 3 → NoDup (peekedCardIds s) →
  (peekedCardIds (handlePeekClick cell s s) = peekedCardIds s ++ [cell_id cell]
   ↔ phase s = PEEK ∧ isMyTurn s = true ∧ isFlipped cell = false
     ∧ (cell_id cell ∉ peekedCardIds s) ∧ length (peekedCardIds s) < 3)
  ∧ (peekedCardIds (handlePeekClick cell s s) = peekedCardIds s
     ∨ peekedCardIds (handlePeekClick cell s s) = peekedCardIds s ++ [cell_id cell])
  ∧ length (peekedCardIds (handlePeekClick cell s s)) ≤ 3
  ∧ NoDup (peekedCardIds (handlePeekClick cell s s))
  ∧ handlePeekClick cell s s
    = setPeekedCardIds (peekedCardIds (handlePeekClick cell s s)) s.
Proof.
  intros Hlen Hnd.
  assert (∀ l : list string, l ≠ l ++ [cell_id cell]) as Hneq.
  { intros l H. apply (f_equal length) in H. rewrite length_app in H.
    simpl in H. lia. }
  unfold handlePeekClick.
  destruct (bool_decide_reflect (phase s = PEEK)) as [Hph|Hph]; cbn [negb orb];
    [|split; [split; [by intros ?%Hneq|by intros [? _]]|];
      split; [by left|]; split; [done|]; split; [done|by destruct s]].
  destruct (isMyTurn s); cbn [negb orb];
    [|split; [split; [by intros ?%Hneq|by intros (_ & ? & _)]|];
      split; [by left|]; split; [done|]; split; [done|by destruct s]].
  destruct (isFlipped cell); cbn [negb orb];
    [split; [split; [by intros ?%Hneq|by intros (_ & _ & ? & _)]|];
      split; [by left|]; split; [done|]; split; [done|by destruct s]|].
  destruct (bool_decide_reflect (cell_id cell ∈ peekedCardIds s)) as [Hin|Hin];
    [split; [split; [by intros ?%Hneq|by intros (_ & _ & _ & ? & _)]|];
      split; [by left|]; split; [done|]; split; [done|by destruct s]|].
  destruct (Nat.ltb_spec (length (peekedCardIds s)) 3) as [Hlt|Hge];
    [|split; [split; [by intros ?%Hneq|intros (_ & _ & _ & _ & ?); lia]|];
      split; [by left|]; split; [done|]; split; [done|by destruct s]].
  cbn [peekedCardIds setPeekedCardIds]. split; [by split|].
  split; [by right|]. split; [rewrite length_app; simpl; lia|].
  split; [|done]. apply NoDup_app. split; [done|]. split.
  - intros x Hx [->|H]%elem_of_cons; [done|by apply elem_of_nil in H].
  - apply NoDup_singleton.
Qed.

End Peeking.

Section Scores.

(** X29. The evaluation of a round never lowers a score and never
    changes who sits where: each player is at the same place with the
    same id, with a score at least as high. *)
Theorem evaluation_never_lowers_a_score (snap : State) (q : QuizState)
    (ps' : list Player) (i : nat) (p' : Player) :
  Reachable snap →
  nextPlayers (players snap) q = Some ps' → ps' !! i = Some p' →
  length ps' = length (players snap)
  ∧ ∃ p, players snap !! i = Some p
         ∧ player_id p' = player_id p
         ∧ score p ≤ score p'.
Proof.
  intros Hsnap Hnp Hp'. split; [by eapply nextPlayers_length|].
  destruct (nextPlayers_lookup _ _ _ _ _ Hnp Hp') as (p & Hp & [->|(n & Hn & ->)]).
  { by exists p. }
  exists p. split; [done|]. split; [done|]. cbn [score].
  assert (p ∈ players snap) as Hin by (by eapply list_elem_of_lookup_2).
  destruct (Reachable_scoresOk snap Hsnap p Hin) as [Hlong _].
  destruct (decide (25 ≤ length (board p))) as [Hlen|Hshort].
  - specialize (Hlong Hlen). rewrite checkBingo_long in Hlong by done.
    rewrite checkBingo_long in Hn by (by rewrite flipBoard_length).
    injection Hlong as <-. injection Hn as <-.
    apply spec_count_mono. intros k. unfold flippedAt.
    destruct (board p !! k) as [c|] eqn:Hc; [|done].
    rewrite (flipBoard_lookup _ _ _ _ Hc). intros Hf. by case_bool_decide.
  - rewrite checkBingo_short in Hn by (rewrite flipBoard_length; lia). done.
Qed.

(** X30. When the evaluation of a round ends the game, the winner it
    logs is the first player, in the order of the places, whose score
    reaches [winLines], and with the settings unchanged the game-over
    modal names the same player.  The turn and the quiz stay as they
    were. *)
Theorem evaluateRound_names_the_winner (snap s s' : State) (q : QuizState) :
  quizState snap = Some q → settings s = settings snap →
  evaluateRound snap s = Some s' → phase s' = GAME_OVER →
  ∃ w, findWinner (settings snap) (players s') = Some w
       ∧ gameLog s' !! 0 = Some (name w +:+ " 승리!")
       ∧ gameOverWinnerName s' = Some (name w)
       ∧ turnIndex s' = turnIndex s
       ∧ quizState s' = quizState s.
Proof.
  intros Hq Hst. unfold evaluateRound. rewrite Hq.
  destruct (nextPlayers (players snap) q) as [ps'|]; [|done].
  cbn [mbind option_bind].
  destruct (findWinner (settings snap) ps') as [w|] eqn:Hw; intros [= <-]; [|done].
  intros _. exists w. split; [done|]. split; [done|]. split; [|done].
  unfold gameOverWinnerName.
  cbn [settings players addLog setGameLog setPhase setPlayers].
  by rewrite Hst, Hw.
Qed.

End Scores.

(** ** More worked examples *)

Section MoreExamples.

Lemma gameStarted_Reachable s : gameStarted = Some s → Reachable s.
Proof. intros H. by exists startEvents. Defined.

Lemma samplePlayers_long :
  Forall (fun p => 25 ≤ length (board p)) samplePlayers.
Proof. repeat constructor. Defined.

Lemma checkBingo_reads_first_25_cells_witness :
  25 ≤ length (boardOfFlags rowAlmost)
  ∧ ∃ n, checkBingo (boardOfFlags rowAlmost) = Some n ∧ n ≤ 12.
Proof.
  assert (25 ≤ length (boardOfFlags rowAlmost)) as Hlen by (vm_compute; lia).
  split; [exact Hlen|].
  destruct (checkBingo_reads_first_25_cells (boardOfFlags rowAlmost) Hlen)
    as (n & Hn & _ & _ & Hle).
  exists n. split; [exact Hn|exact Hle].
Defined.

Lemma checkBingo_monotone_witness :
  checkBingo (boardOfFlags rowAlmost) = Some 0
  ∧ checkBingo (flipBoard "5" (boardOfFlags rowAlmost)) = Some 1
  ∧ 0 ≤ 1.
Proof.
  split; [reflexivity|]. split; [reflexivity|].
  apply (checkBingo_monotone (boardOfFlags rowAlmost)
           (flipBoard "5" (boardOfFlags rowAlmost)) 0 1).
  - vm_compute; lia.
  - reflexivity.
  - intros i c c' Hc Hc' Hf. rewrite (flipBoard_lookup _ _ _ _ Hc) in Hc'.
    injection Hc' as <-. by case_bool_decide.
  - reflexivity.
  - reflexivity.
Defined.

Lemma newPlayers_roster_witness :
  1 < playerCount (mkSettings G8 2 STANDARD 1)
  ∧ ∃ p, samplePlayers !! 1 = Some p ∧ player_id p = "player-2" ∧ isAI p = true.
Proof.
  assert (1 < playerCount (mkSettings G8 2 STANDARD 1)) as Hlt by (simpl; lia).
  split; [exact Hlt|].
  destruct (newPlayers_roster (mkSettings G8 2 STANDARD 1)
              (fetchHanjaData ApiKeyMissing G8 25) (fun _ => []) 1 Hlt)
    as (_ & p & Hp & Hid & Hai & _).
  exists p. split; [exact Hp|]. split; [exact Hid|exact Hai].
Defined.

Lemma startGame_resume_first_turn_witness :
  0 < playerCount (settings initialState)
  ∧ phase (startGame_resume ApiKeyMissing (fun _ => []) (mkRand 0 0)
             initialState initialState) = TURN_START.
Proof.
  assert (0 < playerCount (settings initialState)) as Hlt by (simpl; lia).
  split; [exact Hlt|].
  destruct (startGame_resume_first_turn ApiKeyMissing (fun _ => []) (mkRand 0 0)
              initialState initialState Hlt) as (t & p & Hph & _).
  exact Hph.
Defined.

Lemma run_settings_in_range_witness :
  ∃ s, gameStarted = Some s ∧ playerCount (settings s) ∈ [2; 3; 4].
Proof.
  eexists. split; [vm_compute; reflexivity|].
  match goal with
  | |- playerCount (settings ?s) ∈ _ =>
      exact (proj1 (run_settings_in_range s (gameStarted_Reachable s eq_refl)))
  end.
Defined.

Lemma run_roster_witness :
  ∃ s, gameStarted = Some s ∧ length (players s) ∈ [0; 2; 3; 4].
Proof.
  eexists. split; [vm_compute; reflexivity|].
  match goal with
  | |- length (players ?s) ∈ _ =>
      exact (proj1 (run_roster s (gameStarted_Reachable s eq_refl)))
  end.
Defined.

Lemma isMyTurn_iff_first_seat_witness :
  ∃ s, gameStarted = Some s ∧ turnIndex s = Num 0 ∧ isMyTurn s = true.
Proof.
  eexists. split; [vm_compute; reflexivity|]. split; [reflexivity|].
  match goal with
  | |- isMyTurn ?s = true =>
      apply (proj1 (isMyTurn_iff_first_seat s (gameStarted_Reachable s eq_refl)))
  end.
  split; [reflexivity|discriminate].
Defined.

Lemma run_score_is_line_count_witness :
  ∃ s p, gameStarted = Some s ∧ players s !! 0 = Some p
         ∧ checkBingo (board p) = Some (score p).
Proof.
  eexists _, _. split; [vm_compute; reflexivity|]. split; [reflexivity|].
  match goal with
  | |- checkBingo (board ?p) = _ =>
      refine (proj1 (proj1 (run_score_is_line_count _ p
                              (gameStarted_Reachable _ eq_refl) _) _))
  end.
  - apply list_elem_of_here.
  - vm_compute; lia.
Defined.

Lemma run_boards_hold_one_pool_witness :
  ∃ s p p', gameStarted = Some s ∧ players s !! 0 = Some p
            ∧ players s !! 1 = Some p'
            ∧ length (board p) = length (board p').
Proof.
  eexists _, _, _. split; [vm_compute; reflexivity|].
  split; [reflexivity|]. split; [reflexivity|].
  match goal with
  | |- length (board ?p) = length (board ?p') =>
      refine (proj1 (proj2 (run_boards_hold_one_pool _ p p'
                              (gameStarted_Reachable _ eq_refl) _ _)))
  end.
  - apply list_elem_of_here.
  - apply list_elem_of_further, list_elem_of_here.
Defined.

Lemma run_cell_ids_unique_witness :
  ∃ s p c, gameStarted = Some s ∧ players s !! 1 = Some p
           ∧ board p !! 3 = Some c
           ∧ ∀ j l p' c', players s !! j = Some p' → board p' !! l = Some c' →
                          cell_id c = cell_id c' → 1 = j ∧ 3 = l.
Proof.
  eexists _, _, _. split; [vm_compute; reflexivity|].
  split; [reflexivity|]. split; [reflexivity|].
  intros j l p' c' Hp' Hc' Heq.
  exact (run_cell_ids_unique _ 1 j 3 l _ p' _ c'
           (gameStarted_Reachable _ eq_refl) eq_refl eq_refl Hp' Hc' Heq).
Defined.

Lemma run_gameLog_at_most_five_witness :
  ∃ s, gameStarted = Some s ∧ length (gameLog s) ≤ 5.
Proof.
  eexists. split; [vm_compute; reflexivity|].
  match goal with
  | |- length (gameLog ?s) ≤ 5 =>
      exact (run_gameLog_at_most_five s (gameStarted_Reachable s eq_refl))
  end.
Defined.

Lemma run_never_enters_EVALUATE_witness :
  ∃ s, gameStarted = Some s ∧ phase s ≠ EVALUATE.
Proof.
  eexists. split; [vm_compute; reflexivity|].
  match goal with
  | |- phase ?s ≠ EVALUATE =>
      exact (run_never_enters_EVALUATE s (gameStarted_Reachable s eq_refl))
  end.
Defined.

Lemma pickTarget_prefers_unflipped_witness :
  ∃ p c t, samplePlayers !! 1 = Some p ∧ c ∈ board p ∧ isFlipped c = false
           ∧ pickTarget [] p = Some t ∧ isFlipped t = false.
Proof.
  eexists _, _, _. split; [reflexivity|]. split; [apply list_elem_of_here|].
  split; [reflexivity|].
  match goal with
  | |- pickTarget [] ?p = Some ?t ∧ _ =>
      assert (pickTarget [] p = Some t) as Hpick by reflexivity;
      split; [exact Hpick|];
      destruct (proj1 (proj2 (pickTarget_prefers_unflipped [] p)))
        as (t' & Ht' & _ & Hf)
  end.
  - eexists. split; [apply list_elem_of_here|reflexivity].
  - rewrite Hpick in Ht'. injection Ht' as <-. exact Hf.
Defined.

Lemma handleSelectCard_options_count_witness :
  ∃ p0 s' q,
    players quizAtZero !! 0 = Some p0
    ∧ handleSelectCard (mkRand 0 0) [] [] (mkHanja "1" "天" "하늘" "천" "하늘 천")
        quizAtZero quizAtZero = Some s'
    ∧ quizState s' = Some q
    ∧ (mkHanja "1" "天" "하늘" "천" "하늘 천") ∈ options q.
Proof.
  eexists _. 
  destruct (proj2 (handleSelectCard_options_count (mkRand 0 0) [] []
                     (mkHanja "1" "天" "하늘" "천" "하늘 천") quizAtZero quizAtZero)
              _ eq_refl)
    as (s' & q & Hs' & _ & Hq & _ & Hin & _).
  exists s', q. split; [reflexivity|]. split; [exact Hs'|].
  split; [exact Hq|exact Hin].
Defined.


Lemma ai_answers_are_option_ids_witness :
  correctOptionId quizFresh ∈ hanja_id <$> options quizFresh
  ∧ ∃ a, bystanderAnswerId (mkRand 0 0) [] quizFresh = Some a
         ∧ a ∈ hanja_id <$> options quizFresh.
Proof.
  assert (correctOptionId quizFresh ∈ hanja_id <$> options quizFresh) as Hc
    by apply list_elem_of_here.
  split; [exact Hc|].
  exact (proj2 (proj1 (ai_answers_are_option_ids (mkRand 0 0) [] quizFresh) Hc)).
Defined.

Lemma peek_timeout_runs_into_quiz_witness :
  ∃ ap p0 s2,
    phase peekAtZero = PEEK ∧ timeLeft peekAtZero = 0%Z
    ∧ activePlayer peekAtZero = Some ap ∧ board ap ≠ []
    ∧ players peekAtZero !! 0 = Some p0
    ∧ timerExpiryEffect (mkRand 0 0) [] [] [] (finishPeek peekAtZero)
        (finishPeek peekAtZero) = Some s2
    ∧ phase s2 = QUIZ.
Proof.
  eexists _, _.
  assert (phase peekAtZero = PEEK) as Hph by reflexivity.
  assert (timeLeft peekAtZero = 0%Z) as Ht by reflexivity.
  match goal with
  | |- ∃ s2, _ ∧ _ ∧ activePlayer _ = Some ?ap ∧ _ ∧ _ !! 0 = Some ?p0 ∧ _ =>
      assert (activePlayer peekAtZero = Some ap) as Hap by reflexivity;
      assert (board ap ≠ []) as Hb by discriminate;
      assert (players peekAtZero !! 0 = Some p0) as Hp0 by reflexivity;
      destruct (peek_timeout_runs_into_quiz (mkRand 0 0) [] [] [] peekAtZero ap p0
                  Hph Ht Hap Hb Hp0)
        as (s1 & s2 & t & q & H1 & _ & _ & _ & H2 & Hph2 & _)
  end.
  assert (s1 = finishPeek peekAtZero) as Hs1.
  { assert (timerExpiryEffect (mkRand 0 0) [] [] [] peekAtZero peekAtZero
            = Some (finishPeek peekAtZero)) as H1' by reflexivity.
    rewrite H1' in H1. by injection H1. }
  subst s1. exists s2.
  split; [exact Hph|]. split; [exact Ht|]. split; [exact Hap|].
  split; [exact Hb|]. split; [exact Hp0|]. split; [exact H2|exact Hph2].
Defined.

Lemma turn_entered_at_zero_skips_peek_witness :
  phase peekAtZero = PEEK ∧ timeLeft peekAtZero = 0%Z
  ∧ ∃ s', timerExpiryEffect (mkRand 0 0) [] [] [] peekAtZero
            (timerInitEffect peekAtZero peekAtZero) = Some s'
          ∧ phase s' = SELECT ∧ timeLeft s' = 30%Z.
Proof.
  assert (phase peekAtZero = PEEK) as Hph by reflexivity.
  assert (timeLeft peekAtZero = 0%Z) as Ht by reflexivity.
  split; [exact Hph|]. split; [exact Ht|].
  destruct (proj1 (turn_entered_at_zero_skips_peek (mkRand 0 0) [] [] []
                     peekAtZero Hph) Ht) as (s' & Hs' & Hph' & Ht' & _).
  exists s'. split; [exact Hs'|]. split; [exact Hph'|exact Ht'].
Defined.

Lemma quiz_timeout_completes_round_witness :
  phase quizAtZero = QUIZ ∧ timeLeft quizAtZero = 0%Z
  ∧ quizState quizAtZero = Some quizFresh ∧ resultsShown quizFresh = false
  ∧ Forall (fun p => 25 ≤ length (board p)) (players quizAtZero)
  ∧ ∃ s1 s3,
      timerExpiryEffect (mkRand 0 0) [] [] [] quizAtZero quizAtZero = Some s1
      ∧ fire EvaluateRoundTimeout s1 (showResultsEffect s1 s1) = Some s3
      ∧ (phase s3 = TURN_START ∨ phase s3 = GAME_OVER).
Proof.
  assert (phase quizAtZero = QUIZ) as Hph by reflexivity.
  assert (timeLeft quizAtZero = 0%Z) as Ht by reflexivity.
  assert (quizState quizAtZero = Some quizFresh) as Hq by reflexivity.
  assert (resultsShown quizFresh = false) as Hrs by reflexivity.
  split; [exact Hph|]. split; [exact Ht|]. split; [exact Hq|].
  split; [exact Hrs|]. split; [exact samplePlayers_long|].
  destruct (quiz_timeout_completes_round (mkRand 0 0) [] [] [] quizAtZero quizFresh
              Hph Ht Hq Hrs samplePlayers_long)
    as (s1 & s2 & s3 & q2 & H1 & H2 & _ & _ & H3 & Hend).
  exists s1, s3. split; [exact H1|]. rewrite H2. split; [exact H3|].
  destruct Hend as [[Hp _]|[Hp _]]; [left|right]; exact Hp.
Defined.

Lemma nextTurn_round_robin_witness :
  1 < 3 ∧ Nat.iter 3 (fun x => nextTurn x 3) (Num 1) = Num 1.
Proof.
  assert (1 < 3) as Hlt by lia. split; [exact Hlt|].
  exact (proj1 (proj2 (nextTurn_round_robin 3 1 Hlt))).
Defined.

Lemma renderCellOverlay_marks_flipped_cells_witness :
  ∃ p c,
    quizState quizResults = Some quizShown
    ∧ targetHanja quizShown = Some (mkHanja "1" "天" "하늘" "천" "하늘 천")
    ∧ correctOptionId quizShown = "1"
    ∧ players quizResults !! 0 = Some p ∧ board p !! 0 = Some c
    ∧ renderCellOverlay quizResults (hanja_id (hanja c)) p = Some CheckMark
    ∧ answers quizShown !! player_id p = Some "1".
Proof.
  eexists _, _.
  assert (quizState quizResults = Some quizShown) as Hq by reflexivity.
  assert (targetHanja quizShown = Some (mkHanja "1" "天" "하늘" "천" "하늘 천"))
    as Htar by reflexivity.
  assert (correctOptionId quizShown = "1") as Hcor by reflexivity.
  split; [exact Hq|]. split; [exact Htar|]. split; [exact Hcor|].
  split; [reflexivity|]. split; [reflexivity|].
  match goal with
  | |- renderCellOverlay _ (hanja_id (hanja ?c)) ?p = _ ∧ _ =>
      assert (renderCellOverlay quizResults (hanja_id (hanja c)) p = Some CheckMark)
        as Hov by (vm_compute; reflexivity);
      split; [exact Hov|];
      exact (proj1 (proj2 (renderCellOverlay_marks_flipped_cells quizResults
                             quizShown _ p c Hq Htar Hcor)) Hov)
  end.
Defined.

Lemma answerAvatars_follow_answers_witness :
  ∃ p o, samplePlayers !! 0 = Some p ∧ options quizShown !! 0 = Some o
         ∧ answers quizShown !! player_id p = Some (hanja_id o)
         ∧ p ∈ answerAvatars samplePlayers quizShown o.
Proof.
  eexists _, _. split; [reflexivity|]. split; [reflexivity|].
  match goal with
  | |- answers _ !! player_id ?p = Some (hanja_id ?o) ∧ _ =>
      assert (answers quizShown !! player_id p = Some (hanja_id o)) as Hans
        by (vm_compute; reflexivity);
      split; [exact Hans|];
      apply (proj1 (answerAvatars_follow_answers samplePlayers quizShown p) o)
  end.
  split; [apply list_elem_of_here|exact Hans].
Defined.

Lemma avatarLabel_of_player_witness :
  ∃ s p, gameStarted = Some s ∧ players s !! 1 = Some p
         ∧ avatarLabel (name p) = "2".
Proof.
  eexists _, _. split; [vm_compute; reflexivity|]. split; [reflexivity|].
  exact (avatarLabel_of_player _ 1 _ (gameStarted_Reachable _ eq_refl) eq_refl).
Defined.

Lemma aiPeek_hidden_from_human_witness :
  ∃ s ap me,
    gameStarted = Some s ∧ players s !! 1 = Some ap ∧ players s !! 0 = Some me
    ∧ ∀ c, c ∈ board me → cardFaceUp (aiPeek [] ap s) c = isFlipped c.
Proof.
  eexists _, _, _. split; [vm_compute; reflexivity|].
  split; [reflexivity|]. split; [reflexivity|].
  refine (proj2 (proj2 (aiPeek_hidden_from_human [] 1 _ _ _ _
                          (gameStarted_Reachable _ eq_refl)
                          (gameStarted_Reachable _ eq_refl) eq_refl _ eq_refl))).
  discriminate.
Defined.

Lemma handlePeekClick_at_most_three_witness :
  ∃ cell,
    length (peekedCardIds peekAtZero) ≤ 3 ∧ NoDup (peekedCardIds peekAtZero)
    ∧ length (peekedCardIds (handlePeekClick cell peekAtZero peekAtZero)) ≤ 3.
Proof.
  exists (mkCell "1-0" (mkHanja "1" "天" "하늘" "천" "하늘 천") false false 0).
  assert (length (peekedCardIds peekAtZero) ≤ 3) as Hlen by (simpl; lia).
  assert (NoDup (peekedCardIds peekAtZero)) as Hnd by apply NoDup_nil_2.
  split; [exact Hlen|]. split; [exact Hnd|].
  exact (proj1 (proj2 (proj2 (handlePeekClick_at_most_three _ peekAtZero Hlen Hnd)))).
Defined.

Lemma evaluation_never_lowers_a_score_witness :
  ∃ s ps' p',
    gameStarted = Some s
    ∧ nextPlayers (players s) quizAnswered = Some ps' ∧ ps' !! 0 = Some p'
    ∧ length ps' = length (players s).
Proof.
  eexists _, _, _. split; [vm_compute; reflexivity|].
  match goal with
  | |- nextPlayers (players ?s) _ = Some ?ps' ∧ _ =>
      assert (nextPlayers (players s) quizAnswered = Some ps') as Hnp
        by (vm_compute; reflexivity);
      split; [exact Hnp|]; split; [reflexivity|];
      exact (proj1 (evaluation_never_lowers_a_score s quizAnswered ps' 0 _
                      (gameStarted_Reachable s eq_refl) Hnp eq_refl))
  end.
Defined.

Lemma evaluateRound_names_the_winner_witness :
  ∃ s s',
    run (take 55 firstGame) [] initialState = Some s
    ∧ evaluateRound s s = Some s' ∧ phase s' = GAME_OVER
    ∧ ∃ w, gameOverWinnerName s' = Some (name w).
Proof.
  eexists _, _. split; [vm_compute; reflexivity|].
  match goal with
  | |- evaluateRound ?s ?s = Some ?s' ∧ _ =>
      assert (evaluateRound s s = Some s') as Hev by (vm_compute; reflexivity);
      assert (phase s' = GAME_OVER) as Hph by reflexivity;
      split; [exact Hev|]; split; [exact Hph|];
      destruct (evaluateRound_names_the_winner s s s' _ eq_refl eq_refl Hev Hph)
        as (w & _ & _ & Hname & _)
  end.
  exists w. exact Hname.
Defined.

End MoreExamples.
